(** * Chart of Accounts view: model and verification

    Shallow embedding of [frontend/src/components/banking/ChartOfAccounts.js].

    The component is a React function component.  Its local state
    ([useState]) is a record, its derived values ([filteredAccounts],
    [accountStats]) are functions of that record, the asynchronous
    [loadAccounts] is split at its single [await], and the two [useEffect]
    hooks together with the debounce timer are run by a small event machine
    over an explicit millisecond clock.

    Modelling choices:
    - a JavaScript string is the list of its UTF-16 code units;
    - what the language itself provides and the component only calls
      ([String.prototype.toLowerCase], the arithmetic of the Number type)
      is an interface, [Engine], with the few facts about it that the
      proofs use; every definition and theorem is for every engine;
    - a property that may be missing is an [option] (strings) or a
      [value] that can be [VUndefined] or [VNull] (the balance). *)

From Stdlib Require Import String Ascii List ZArith NArith Bool Arith Lia.
Import ListNotations.

Set Implicit Arguments.

(** ** JavaScript strings *)

Module Js.

(** A string: its UTF-16 code units. *)
Definition str := list N.

(** String literal of the source; its characters are ASCII. *)
Definition lit (s : string) : str := map N_of_ascii (list_ascii_of_string s).
Arguments lit s%_string : simpl never.

Definition str_eq_dec : forall s t : str, {s = t} + {s <> t} :=
  list_eq_dec N.eq_dec.

(** [s === t] on strings. *)
Definition str_eqb (s t : str) : bool :=
  if str_eq_dec s t then true else false.

(** Truthiness of a string: only the empty string is falsy. *)
Definition str_truthy (s : str) : bool :=
  match s with [] => false | _ :: _ => true end.

(** [s] begins with [p]. *)
Fixpoint starts_with (p s : str) : bool :=
  match p, s with
  | [], _ => true
  | _ :: _, [] => false
  | c :: p', d :: s' => if N.eq_dec c d then starts_with p' s' else false
  end.

(** [s.includes(t)]: [t] occurs in [s] at some position. *)
Fixpoint includes (s t : str) : bool :=
  starts_with t s ||
  match s with
  | [] => false
  | _ :: s' => includes s' t
  end.

(** *** ASCII strings *)

(** Every character of [s] is an ASCII character. *)
Definition asciiOnly (s : str) : Prop := Forall (fun c => (c < 128)%N) s.

Definition asciiOnlyb (s : str) : bool := forallb (fun c => (c <? 128)%N) s.

(** [c] is one of the letters A to Z. *)
Definition is_upper (c : N) : bool := ((65 <=? c) && (c <=? 90))%N.

(** The letters A to Z become a to z; nothing else changes. *)
Definition asciiLowerChar (c : N) : N :=
  if is_upper c then (c + 32)%N else c.

Definition asciiLowerCase (s : str) : str := map asciiLowerChar s.

(** *** Specification-side notions *)

(** [t] is a literal (case-sensitive) substring of [s]. *)
Definition substring_of (t s : str) : Prop :=
  exists pre post, s = pre ++ t ++ post.

(** Two characters are equal, or are the upper-case and the lower-case form
    of one ASCII letter (the codes of the two forms are 32 apart). *)
Definition same_letter (c d : N) : Prop :=
  c = d \/
  ((65 <= c <= 90)%N /\ d = (c + 32)%N) \/
  ((65 <= d <= 90)%N /\ c = (d + 32)%N).

(** Equality of strings up to the case of their ASCII letters. *)
Definition eq_ignore_case (s t : str) : Prop := Forall2 same_letter s t.


End Js.

Import Js.

(** ** What the language provides

    The component calls [toLowerCase] and adds numbers; both belong to the
    language, not to the repository.  They are taken as an interface.

    [toLowerCase] is [String.prototype.toLowerCase]: the Unicode default
    lower-casing, which is not a character-by-character map (a capital
    sigma is lowered according to its neighbours).  Two facts about it are
    used: on a string of ASCII characters it turns A-Z into a-z and changes
    nothing else; and two strings that differ only in the case of ASCII
    letters have the same lower-casing.

    [num] stands for the values of the Number type other than [NaN], the
    two zeros taken as one value; [add] is [+] on them, rounding included.
    ([Infinity + -Infinity], the one sum of such values that is [NaN], is
    left out: balances are finite amounts.)  No associativity or
    commutativity is assumed, only that adding zero changes nothing.
    [ofZ] is the value of an integer literal, [isZero] is the falsiness of
    a number that is not [NaN], and [nonNegative] is [x >= 0]. *)

Class Engine := {
  toLowerCase : str -> str;
  toLowerCase_ascii :
    forall s, asciiOnly s -> toLowerCase s = asciiLowerCase s;
  toLowerCase_letter_case :
    forall s t, eq_ignore_case s t -> toLowerCase s = toLowerCase t;
  num : Type;
  ofZ : Z -> num;
  add : num -> num -> num;
  isZero : num -> bool;
  nonNegative : num -> bool;
  add_zero_r : forall x, add x (ofZ 0) = x;
  add_zero_l : forall x, add (ofZ 0) x = x;
  isZero_zero : forall x, isZero x = true -> x = ofZ 0;
  isZero_ofZ : forall z, isZero (ofZ z) = (z =? 0)%Z;
  nonNegative_zero : nonNegative (ofZ 0) = true
}.

(** ** JavaScript numbers and missing values *)

(** A number: [NaN], or another value of the Number type. *)
Inductive number {engine : Engine} := NaN | Num (z : num).

(** What a numeric property can hold: nothing, [null], or a number. *)
Inductive value {engine : Engine} := VUndefined | VNull | VNumber (n : number).

(** ** Data model *)

Module Account.
Record t {engine : Engine} := {
  id : str;
  name : str;
  type : str;
  number : option str;
  balance : value;
  description : option str;
  is_active : bool
}.
End Account.

Module Company.
Record t := { id : str }.
End Company.

Module Options.
Record t := {
  limit : Z;
  is_active : option bool;
  search : option str;
  account_type : option str
}.
End Options.

Section Model.

Context {engine : Engine}.

(** Truthiness: [undefined], [null], [NaN] and [0] are falsy. *)
Definition truthy (v : value) : bool :=
  match v with
  | VNumber (Num z) => negb (isZero z)
  | _ => false
  end.

(** [a || b] *)
Definition or_else (a b : value) : value := if truthy a then a else b.

(** Numeric coercion applied by [+] to a non-string operand. *)
Definition toNumber (v : value) : number :=
  match v with
  | VUndefined => NaN
  | VNull => Num (ofZ 0)
  | VNumber n => n
  end.

Definition number_add (a b : number) : number :=
  match a, b with
  | Num x, Num y => Num (add x y)
  | _, _ => NaN
  end.

(** [a + b] on operands that are not strings. *)
Definition plus (a b : value) : value :=
  VNumber (number_add (toNumber a) (toNumber b)).

(** The literal [0]. *)
Definition zero : value := VNumber (Num (ofZ 0)).

(** [arr.reduce(f, init)] *)
Definition reduce (A B : Type) (f : B -> A -> B) (init : B) (arr : list A) : B :=
  fold_left f arr init.

(** The [useState] cells of the component. *)
Record ViewState := {
  searchTerm : str;
  filterType : str;
  showInactive : bool;
  accounts : list Account.t;
  loading : bool;
  error : option str;
  refreshing : bool
}.

(** Initial values passed to [useState]. *)
Definition initialState : ViewState :=
  {| searchTerm := lit ""; filterType := lit "all"; showInactive := false;
     accounts := []; loading := true; error := None; refreshing := false |}.

Definition setSearchTerm (v : str) (st : ViewState) : ViewState :=
  {| searchTerm := v; filterType := filterType st;
     showInactive := showInactive st; accounts := accounts st;
     loading := loading st; error := error st; refreshing := refreshing st |}.

Definition setFilterType (v : str) (st : ViewState) : ViewState :=
  {| searchTerm := searchTerm st; filterType := v;
     showInactive := showInactive st; accounts := accounts st;
     loading := loading st; error := error st; refreshing := refreshing st |}.

Definition setShowInactive (v : bool) (st : ViewState) : ViewState :=
  {| searchTerm := searchTerm st; filterType := filterType st;
     showInactive := v; accounts := accounts st;
     loading := loading st; error := error st; refreshing := refreshing st |}.

Definition setAccounts (v : list Account.t) (st : ViewState) : ViewState :=
  {| searchTerm := searchTerm st; filterType := filterType st;
     showInactive := showInactive st; accounts := v;
     loading := loading st; error := error st; refreshing := refreshing st |}.

Definition setLoading (v : bool) (st : ViewState) : ViewState :=
  {| searchTerm := searchTerm st; filterType := filterType st;
     showInactive := showInactive st; accounts := accounts st;
     loading := v; error := error st; refreshing := refreshing st |}.

Definition setError (v : option str) (st : ViewState) : ViewState :=
  {| searchTerm := searchTerm st; filterType := filterType st;
     showInactive := showInactive st; accounts := accounts st;
     loading := loading st; error := v; refreshing := refreshing st |}.

Definition setRefreshing (v : bool) (st : ViewState) : ViewState :=
  {| searchTerm := searchTerm st; filterType := filterType st;
     showInactive := showInactive st; accounts := accounts st;
     loading := loading st; error := error st; refreshing := v |}.

(** ** Derived values of a render *)

(** [account.number && account.number.includes(searchTerm)], as a truth
    value: a missing or empty number is falsy. *)
Definition numberMatches (account : Account.t) (term : str) : bool :=
  match Account.number account with
  | Some n => str_truthy n && includes n term
  | None => false
  end.

Definition matchesSearch (st : ViewState) (account : Account.t) : bool :=
  str_eqb (searchTerm st) (lit "") ||
  includes (toLowerCase (Account.name account)) (toLowerCase (searchTerm st)) ||
  numberMatches account (searchTerm st).

Definition matchesType (st : ViewState) (account : Account.t) : bool :=
  str_eqb (filterType st) (lit "all") ||
  str_eqb (toLowerCase (Account.type account)) (toLowerCase (filterType st)).

Definition matchesActive (st : ViewState) (account : Account.t) : bool :=
  showInactive st || Account.is_active account.

Definition filteredAccounts (st : ViewState) : list Account.t :=
  filter (fun account =>
            matchesSearch st account && matchesType st account
            && matchesActive st account)
         (accounts st).

Record Stats := {
  bankAccounts : nat;
  totalBankBalance : value;
  totalAssets : value;
  totalLiabilities : value;
  totalAccounts : nat
}.

(** The callback [(sum, account) => sum + (account.balance || 0)]. *)
Definition addBalance (sum : value) (account : Account.t) : value :=
  plus sum (or_else (Account.balance account) zero).

Definition accountStats (st : ViewState) : Stats :=
  {| bankAccounts :=
       length (filter (fun account => str_eqb (Account.type account) (lit "Bank"))
                      (accounts st));
     totalBankBalance :=
       reduce addBalance zero
         (filter (fun account => str_eqb (Account.type account) (lit "Bank"))
                 (accounts st));
     totalAssets :=
       reduce addBalance zero
         (filter (fun account =>
                    str_eqb (Account.type account) (lit "Fixed Asset"))
                 (accounts st));
     totalLiabilities :=
       reduce addBalance zero
         (filter (fun account =>
                    str_eqb (Account.type account) (lit "Accounts Payable"))
                 (accounts st));
     totalAccounts := length (accounts st) |}.

(** ** The accounts service and [loadAccounts] *)


(** One call [accountService.getAccounts(companyId, options)]. *)
Record Request := { companyId : str; options : Options.t }.

(** The value a fetch resolves with: an object whose [data] may be missing. *)
Record Response := { data : option (list Account.t) }.

(** The value caught by [catch (err)]: its [message] may be missing. *)
Record Failure := { message : option str }.

Inductive Outcome :=
| Resolved (accountsData : Response)
| Rejected (err : Failure).

(** The variables of one render that the closures of that render see. *)
Record Scope := { currentCompany : option Company.t; state : ViewState }.

(** The arguments of the [getAccounts] call. *)
Definition requestOf (company : Company.t) (st : ViewState) : Request :=
  {| companyId := Company.id company;
     options :=
       {| Options.limit := 1000;
          Options.is_active := if showInactive st then None else Some true;
          Options.search :=
            if str_truthy (searchTerm st) then Some (searchTerm st) else None;
          Options.account_type :=
            if str_eqb (filterType st) (lit "all") then None
            else Some (filterType st) |} |}.

(** Reading [currentCompany.id] when there is no company throws a
    [TypeError]; it is thrown inside the [try] block. *)
Definition noCompanyError : Failure :=
  {| message := Some (lit "Cannot read properties of null (reading 'id')") |}.

(** [err.message || 'Failed to load accounts'] *)
Definition errorText (err : Failure) : str :=
  match message err with
  | Some m => if str_truthy m then m else lit "Failed to load accounts"
  | None => lit "Failed to load accounts"
  end.

(** [accountsData.data || []] *)
Definition dataOrEmpty (accountsData : Response) : list Account.t :=
  match data accountsData with
  | Some l => l
  | None => []
  end.

(** [loadAccounts] up to its [await]. *)
Definition loadAccounts_begin (st : ViewState) : ViewState :=
  setError None (setLoading true st).

(** [loadAccounts] from the [await] on: the rest of the [try] block or the
    [catch] block, then the [finally] block. *)
Definition loadAccounts_resume (o : Outcome) (st : ViewState) : ViewState :=
  setLoading false
    (match o with
     | Resolved accountsData => setAccounts (dataOrEmpty accountsData) st
     | Rejected err => setError (Some (errorText err)) st
     end).

(** A whole run of [loadAccounts] with nothing else in between: [service]
    is what the fetch settles with. *)
Definition loadAccounts (sc : Scope) (service : Request -> Outcome)
    (st : ViewState) : ViewState :=
  match currentCompany sc with
  | None => loadAccounts_resume (Rejected noCompanyError) (loadAccounts_begin st)
  | Some company =>
      loadAccounts_resume (service (requestOf company (state sc)))
                          (loadAccounts_begin st)
  end.

(** ** What a render returns *)

Record MainPanel := {
  refreshDisabled : bool;
  searchBox : str;
  typeSelect : str;
  inactiveShown : bool;
  rows : list Account.t;
  noAccountsFound : bool;
  cardBankAccounts : nat;
  cardTotalBankBalance : value;
  cardTotalAssets : value;
  cardTotalAccounts : nat
}.

Inductive View :=
| LoadingView                   (* spinner, "Loading accounts..." *)
| ErrorView (text : str)        (* "Error: ...", Retry button *)
| SelectCompanyView             (* "Please select a company to view accounts" *)
| MainView (panel : MainPanel). (* filters, table, summary cards *)

(** [if (error)] *)
Definition errorShown (st : ViewState) : option str :=
  match error st with
  | Some e => if str_truthy e then Some e else None
  | None => None
  end.

Definition render (sc : Scope) : View :=
  let st := state sc in
  if loading st then LoadingView
  else match errorShown st with
       | Some e => ErrorView e
       | None =>
           match currentCompany sc with
           | None => SelectCompanyView
           | Some _ =>
               MainView
                 {| refreshDisabled := refreshing st;
                    searchBox := searchTerm st;
                    typeSelect := filterType st;
                    inactiveShown := showInactive st;
                    rows := filteredAccounts st;
                    noAccountsFound :=
                      Nat.eqb (length (filteredAccounts st)) 0;
                    cardBankAccounts := bankAccounts (accountStats st);
                    cardTotalBankBalance := totalBankBalance (accountStats st);
                    cardTotalAssets := totalAssets (accountStats st);
                    cardTotalAccounts := totalAccounts (accountStats st) |}
           end
       end.

(** ** The mounted component as an event machine

    Time is in milliseconds.  A pending [setTimeout] callback is kept with
    the scope of the render that created it, which is what its call of
    [loadAccounts] reads.  Timers are all set with the same delay, so the
    list of pending timers is in firing order.  Unmounting is not part of
    the model. *)

Record Timer := { timerId : nat; deadline : N; callback : Scope }.

(** A fetch that has not settled yet; [fromRefresh] when [handleRefresh]
    is awaiting it. *)
Record Pending := { fetchId : nat; fromRefresh : bool }.

(** Log entry of a [getAccounts] call. *)
Record Call := { calledAt : N; request : Request }.

Record Component := {
  company : option Company.t;   (* [useCompany()] *)
  view : ViewState;
  now : N;
  timers : list Timer;
  nextTimer : nat;
  cleanup : option nat;         (* timer the debounce effect's cleanup clears *)
  inFlight : list Pending;
  calls : list Call
}.

Definition scopeOf (m : Component) : Scope :=
  {| currentCompany := company m; state := view m |}.

Definition updView (f : ViewState -> ViewState) (m : Component) : Component :=
  {| company := company m; view := f (view m); now := now m;
     timers := timers m; nextTimer := nextTimer m; cleanup := cleanup m;
     inFlight := inFlight m; calls := calls m |}.

Definition setCompany (c : option Company.t) (m : Component) : Component :=
  {| company := c; view := view m; now := now m;
     timers := timers m; nextTimer := nextTimer m; cleanup := cleanup m;
     inFlight := inFlight m; calls := calls m |}.

Definition setNow (t : N) (m : Component) : Component :=
  {| company := company m; view := view m; now := t;
     timers := timers m; nextTimer := nextTimer m; cleanup := cleanup m;
     inFlight := inFlight m; calls := calls m |}.

Definition setTimers (ts : list Timer) (m : Component) : Component :=
  {| company := company m; view := view m; now := now m;
     timers := ts; nextTimer := nextTimer m; cleanup := cleanup m;
     inFlight := inFlight m; calls := calls m |}.

Definition setInFlight (ps : list Pending) (m : Component) : Component :=
  {| company := company m; view := view m; now := now m;
     timers := timers m; nextTimer := nextTimer m; cleanup := cleanup m;
     inFlight := ps; calls := calls m |}.

(** [currentCompany?.id] as a condition. *)
Definition hasCompanyId (c : option Company.t) : bool :=
  match c with
  | Some company => str_truthy (Company.id company)
  | None => false
  end.

(** [currentCompany?.id] as a dependency of an effect. *)
Definition companyIdDep (c : option Company.t) : option str :=
  option_map Company.id c.

Definition sameDep (a b : option str) : bool :=
  match a, b with
  | Some x, Some y => str_eqb x y
  | None, None => true
  | _, _ => false
  end.

(** A call of the [loadAccounts] closure of scope [sc], up to its [await].
    Without a company the call throws before [getAccounts] is reached and
    runs to its end at once. *)
Definition callLoadAccounts (sc : Scope) (refresh : bool) (m : Component)
  : Component :=
  match currentCompany sc with
  | None =>
      updView (fun st => loadAccounts_resume (Rejected noCompanyError)
                                             (loadAccounts_begin st)) m
  | Some c =>
      {| company := company m; view := loadAccounts_begin (view m);
         now := now m; timers := timers m; nextTimer := nextTimer m;
         cleanup := cleanup m;
         inFlight := inFlight m ++
                     [{| fetchId := length (calls m); fromRefresh := refresh |}];
         calls := calls m ++
                  [{| calledAt := now m; request := requestOf c (state sc) |}] |}
  end.

(** [handleRefresh], up to the [await]. *)
Definition handleRefresh (m : Component) : Component :=
  let m1 := callLoadAccounts (scopeOf m) true (updView (setRefreshing true) m) in
  match company m with
  | None => updView (setRefreshing false) m1
  | Some _ => m1
  end.

(** First effect, dependencies [[currentCompany?.id]]. *)
Definition companyEffect (sc : Scope) (m : Component) : Component :=
  if hasCompanyId (currentCompany sc) then callLoadAccounts sc false m else m.

Definition clearTimeout (id : nat) (m : Component) : Component :=
  setTimers (filter (fun t => negb (Nat.eqb (timerId t) id)) (timers m)) m.

(** Cleanup returned by the last run of the second effect. *)
Definition runCleanup (m : Component) : Component :=
  match cleanup m with
  | Some id => clearTimeout id m
  | None => m
  end.

(** Second effect, dependencies [[searchTerm, filterType, showInactive]]. *)
Definition debounceEffect (sc : Scope) (m : Component) : Component :=
  if hasCompanyId (currentCompany sc) then
    {| company := company m; view := view m; now := now m;
       timers := timers m ++
                 [{| timerId := nextTimer m; deadline := now m + 500;
                     callback := sc |}];
       nextTimer := S (nextTimer m); cleanup := Some (nextTimer m);
       inFlight := inFlight m; calls := calls m |}
  else
    {| company := company m; view := view m; now := now m;
       timers := timers m; nextTimer := nextTimer m; cleanup := None;
       inFlight := inFlight m; calls := calls m |}.

Definition depsChanged (old new : ViewState) : bool :=
  negb (str_eqb (searchTerm old) (searchTerm new)
        && str_eqb (filterType old) (filterType new)
        && Bool.eqb (showInactive old) (showInactive new)).

(** A state setter of one of the three filters, the render that follows,
    and the second effect when its dependencies changed. *)
Definition changeFilter (f : ViewState -> ViewState) (m : Component)
  : Component :=
  let m1 := updView f m in
  if depsChanged (view m) (view m1)
  then debounceEffect (scopeOf m1) (runCleanup m1)
  else m1.

(** The context supplies another company. *)
Definition companyChanged (c : option Company.t) (m : Component) : Component :=
  let m1 := setCompany c m in
  if sameDep (companyIdDep (company m)) (companyIdDep c) then m1
  else companyEffect (scopeOf m1) m1.

(** The timer [t] fires. *)
Definition fire (m : Component) (t : Timer) : Component :=
  callLoadAccounts (callback t) false (setNow (N.max (now m) (deadline t)) m).

(** [dt] milliseconds pass. *)
Definition elapse (dt : N) (m : Component) : Component :=
  let horizon := (now m + dt)%N in
  let due := filter (fun t => (deadline t <=? horizon)%N) (timers m) in
  let waiting := filter (fun t => negb (deadline t <=? horizon)%N) (timers m) in
  setNow horizon (fold_left fire due (setTimers waiting m)).

(** The fetch [fid] settles and the awaiting code resumes. *)
Definition settle (fid : nat) (o : Outcome) (m : Component) : Component :=
  match find (fun p => Nat.eqb (fetchId p) fid) (inFlight m) with
  | None => m
  | Some p =>
      let m1 := updView (loadAccounts_resume o) m in
      let m2 := if fromRefresh p then updView (setRefreshing false) m1 else m1 in
      setInFlight (filter (fun q => negb (Nat.eqb (fetchId q) fid)) (inFlight m)) m2
  end.

Inductive Event :=
| SetSearchTerm (v : str)          (* typing in the search box *)
| SetFilterType (v : str)          (* choosing in the type select *)
| ToggleShowInactive               (* the show / hide inactive button *)
| ClickRefresh                     (* the Refresh or the Retry button *)
| CompanyChanged (c : option Company.t)
| Elapse (dt : N)
| Settle (fid : nat) (o : Outcome).

(** A user event needs its control on screen. *)
Definition enabled (e : Event) (m : Component) : bool :=
  match e with
  | SetSearchTerm _ | SetFilterType _ | ToggleShowInactive =>
      match render (scopeOf m) with MainView _ => true | _ => false end
  | ClickRefresh =>
      match render (scopeOf m) with
      | MainView panel => negb (refreshDisabled panel)
      | ErrorView _ => true
      | _ => false
      end
  | CompanyChanged _ | Elapse _ | Settle _ _ => true
  end.

Definition step (m : Component) (e : Event) : Component :=
  if enabled e m then
    match e with
    | SetSearchTerm v => changeFilter (setSearchTerm v) m
    | SetFilterType v => changeFilter (setFilterType v) m
    | ToggleShowInactive =>
        changeFilter (fun st => setShowInactive (negb (showInactive st)) st) m
    | ClickRefresh => handleRefresh m
    | CompanyChanged c => companyChanged c m
    | Elapse dt => elapse dt m
    | Settle fid o => settle fid o m
    end
  else m.

Definition run (m : Component) (es : list Event) : Component :=
  fold_left step es m.

(** The first render and its two effects. *)
Definition mount (c : option Company.t) (t0 : N) : Component :=
  let m0 := {| company := c; view := initialState; now := t0; timers := [];
               nextTimer := 0; cleanup := None; inFlight := []; calls := [] |} in
  debounceEffect (scopeOf m0) (companyEffect (scopeOf m0) m0).

(** The states the component can be in. *)
Inductive reachable : Component -> Prop :=
| reachable_mount c t0 : reachable (mount c t0)
| reachable_step m e : reachable m -> reachable (step m e).

(** ** The properties, in the words of the specification *)


(** [t] occurs in [s] up to case, as the language has it: the lower-casing
    of [t] is a substring of the lower-casing of [s]. *)
Definition occursIgnoringCase (t s : str) : Prop :=
  substring_of (toLowerCase t) (toLowerCase s).

(** First predicate of the filter: the term is empty, or it occurs in the
    name up to case, or the account has a number in which it occurs
    literally. *)
Definition searchHolds (term : str) (a : Account.t) : Prop :=
  term = [] \/
  occursIgnoringCase term (Account.name a) \/
  (exists n, Account.number a = Some n /\ substring_of term n).



(** The balance of an account as an amount; a balance that is missing
    (or is not a number) counts as zero. *)
Definition amount (a : Account.t) : num :=
  match Account.balance a with
  | VNumber (Num z) => z
  | _ => ofZ 0
  end.

(** Number of accounts whose type is exactly [ty]. *)
Fixpoint countOfType (ty : str) (l : list Account.t) : nat :=
  match l with
  | [] => 0
  | a :: l' =>
      if str_eq_dec (Account.type a) ty
      then S (countOfType ty l') else countOfType ty l'
  end.

(** The balances of the accounts whose type is exactly [ty], added one
    after the other to [sum] in the order of the list. *)
Fixpoint balanceOfTypeFrom (ty : str) (sum : num) (l : list Account.t) : num :=
  match l with
  | [] => sum
  | a :: l' =>
      balanceOfTypeFrom ty
        (if str_eq_dec (Account.type a) ty then add sum (amount a) else sum) l'
  end.

(** Sum of the balances of the accounts whose type is exactly [ty]: they
    are added from 0, in the order of the list. *)
Definition balanceOfType (ty : str) (l : list Account.t) : num :=
  balanceOfTypeFrom ty (ofZ 0) l.

(** The accounts of the scenario of the specification: a Bank account with
    balance 100 that is active and a Fixed Asset account with balance 500
    that is not.  The fields the scenario leaves out are empty. *)
Definition scenarioAccount (ty : str) (bal : Z) (active : bool) : Account.t :=
  {| Account.id := lit ""; Account.name := lit ""; Account.type := ty;
     Account.number := None; Account.balance := VNumber (Num (ofZ bal));
     Account.description := None; Account.is_active := active |}.

Definition scenarioAccounts : list Account.t :=
  [scenarioAccount (lit "Bank") 100 true;
   scenarioAccount (lit "Fixed Asset") 500 false].

(** What a filter event does to the state. *)
Definition applyFilter (e : Event) (st : ViewState) : ViewState :=
  match e with
  | SetSearchTerm v => setSearchTerm v st
  | SetFilterType v => setFilterType v st
  | ToggleShowInactive => setShowInactive (negb (showInactive st)) st
  | _ => st
  end.

(** The event is a change of one of the three filters: it gives the filter
    a value other than the one it has. *)
Inductive changes : Event -> ViewState -> Prop :=
| changes_searchTerm v st : v <> searchTerm st -> changes (SetSearchTerm v) st
| changes_filterType v st : v <> filterType st -> changes (SetFilterType v) st
| changes_showInactive st : changes ToggleShowInactive st.

(** The filter controls are on screen. *)
Definition filtersShown (m : Component) : Prop :=
  loading (view m) = false /\ errorShown (view m) = None /\ company m <> None.

(** At most one debounce timer is pending; it is not due yet and it is the
    one the cleanup of the effect clears. *)
Definition timersOk (m : Component) : Prop :=
  timers m = [] \/
  exists t, timers m = [t] /\ cleanup m = Some (timerId t) /\
            (now m < deadline t)%N.

(** The state right after a filter change [st'] was rendered with a company
    selected: one timer, due in 500 ms, holding the scope of that render. *)
Definition scheduled (m : Component) (st' : ViewState) : Component :=
  {| company := company m; view := st'; now := now m;
     timers := [{| timerId := nextTimer m; deadline := now m + 500;
                   callback := {| currentCompany := company m; state := st' |} |}];
     nextTimer := S (nextTimer m); cleanup := Some (nextTimer m);
     inFlight := inFlight m; calls := calls m |}.

(** Mounted without a company and nothing done since: the initial
    [loading] flag is still set and nothing is pending or logged. *)
Definition idleWithoutCompany (m : Component) : Prop :=
  company m = None /\ loading (view m) = true /\
  timers m = [] /\ inFlight m = [] /\ calls m = [].

(** Every event but the selection of a company. *)
Definition keepsNoCompany (e : Event) : bool :=
  match e with
  | CompanyChanged (Some _) => false
  | _ => true
  end.

(** The ids of the fetches in flight are ids of logged calls, each once. *)
Definition inFlightOk (m : Component) : Prop :=
  Forall (fun p => fetchId p < length (calls m)) (inFlight m) /\
  NoDup (map fetchId (inFlight m)).

(** Every pending timer was set by a render that had a company with an
    id, and is due within 500 ms. *)
Definition timerScopesOk (m : Component) : Prop :=
  Forall (fun t => hasCompanyId (currentCompany (callback t)) = true /\
                   (deadline t <= now m + 500)%N)
         (timers m).

(** A burst of filter events, each followed by a pause. *)
Fixpoint burstEvents (b : list (Event * N)) : list Event :=
  match b with
  | [] => []
  | (e, d) :: b' => e :: Elapse d :: burstEvents b'
  end.

(** Every event of the burst is a change and every pause is shorter than
    500 ms. *)
Fixpoint burstOk (st : ViewState) (b : list (Event * N)) : Prop :=
  match b with
  | [] => True
  | (e, d) :: b' =>
      changes e st /\ (d < 500)%N /\ burstOk (applyFilter e st) b'
  end.

(** The filters after the burst. *)
Fixpoint burstState (st : ViewState) (b : list (Event * N)) : ViewState :=
  match b with
  | [] => st
  | (e, _) :: b' => burstState (applyFilter e st) b'
  end.

(** The time the burst takes. *)
Fixpoint burstTime (b : list (Event * N)) : N :=
  match b with
  | [] => 0%N
  | (_, d) :: b' => (d + burstTime b')%N
  end.

(** While [refreshing] is set, a fetch started by [handleRefresh] is in
    flight. *)
Definition refreshingOk (m : Component) : Prop :=
  refreshing (view m) = true ->
  exists p, In p (inFlight m) /\ fromRefresh p = true.

(** [account.balance >= 0], which picks the colour of the balance cell of a
    row: green when it holds, red when it does not. *)
Definition balanceNonNegative (account : Account.t) : bool :=
  match toNumber (Account.balance account) with
  | Num z => nonNegative z
  | NaN => false
  end.

(** *** Facts about the string operations *)

Lemma str_eqb_eq s t : str_eqb s t = true <-> s = t.
Proof.
  unfold str_eqb. destruct (str_eq_dec s t); split; congruence.
Qed.

Lemma str_eqb_neq s t : str_eqb s t = false <-> s <> t.
Proof.
  unfold str_eqb. destruct (str_eq_dec s t); split; congruence.
Qed.

Lemma str_eqb_refl s : str_eqb s s = true.
Proof. now apply str_eqb_eq. Qed.

Lemma str_truthy_nonempty s : str_truthy s = true <-> s <> [].
Proof.
  destruct s; simpl; split; congruence.
Qed.

Lemma starts_with_app p s :
  starts_with p s = true <-> exists post, s = p ++ post.
Proof.
  revert s. induction p as [|c p IH]; intros s; simpl.
  - split; [intros _; now exists s | reflexivity].
  - destruct s as [|d s].
    + split; [discriminate | intros [post H]; discriminate].
    + destruct (N.eq_dec c d) as [->|Hne].
      * rewrite IH. split; intros [post H]; exists post.
        -- now rewrite H.
        -- now injection H.
      * split; [discriminate | intros [post H]; injection H; congruence].
Qed.

Lemma includes_substring s t : includes s t = true <-> substring_of t s.
Proof.
  unfold substring_of. induction s as [|d s IH]; simpl.
  - rewrite orb_false_r, starts_with_app. split.
    + intros [post H]. now exists [], post.
    + intros [pre [post H]]. destruct pre; [now exists post | discriminate].
  - rewrite orb_true_iff, IH, starts_with_app. split.
    + intros [[post H] | [pre [post H]]].
      * now exists [], post.
      * exists (d :: pre), post. simpl. now rewrite H.
    + intros [pre [post H]]. destruct pre as [|e pre]; simpl in H.
      * left. now exists post.
      * right. exists pre, post. now injection H.
Qed.

Lemma includes_empty s : includes s [] = true.
Proof. destruct s; reflexivity. Qed.

Lemma asciiOnlyb_sound s : asciiOnlyb s = true -> asciiOnly s.
Proof.
  unfold asciiOnlyb, asciiOnly. rewrite forallb_forall, Forall_forall.
  intros H c Hc. now apply N.ltb_lt, H.
Qed.

Lemma is_upper_range c : is_upper c = true <-> (65 <= c <= 90)%N.
Proof.
  unfold is_upper. rewrite andb_true_iff, !N.leb_le. tauto.
Qed.

Lemma asciiLowerChar_upper c :
  (65 <= c <= 90)%N -> asciiLowerChar c = (c + 32)%N.
Proof.
  intros H. unfold asciiLowerChar. now rewrite (proj2 (is_upper_range c) H).
Qed.

Lemma asciiLowerChar_other c :
  ~ (65 <= c <= 90)%N -> asciiLowerChar c = c.
Proof.
  intros H. unfold asciiLowerChar.
  destruct (is_upper c) eqn:Hc; [|reflexivity].
  apply is_upper_range in Hc. contradiction.
Qed.

(** The letter-by-letter notion and the ASCII lower-casing agree. *)
Lemma same_letter_asciiLowerChar c d :
  same_letter c d <-> asciiLowerChar c = asciiLowerChar d.
Proof.
  unfold same_letter. split.
  - intros [-> | [[Hc ->] | [Hd ->]]]; [reflexivity | |].
    + rewrite (asciiLowerChar_upper Hc), asciiLowerChar_other; [reflexivity | lia].
    + rewrite (asciiLowerChar_upper Hd), asciiLowerChar_other; [reflexivity | lia].
  - intros H.
    destruct (is_upper c) eqn:Hc, (is_upper d) eqn:Hd;
      unfold asciiLowerChar in H; rewrite Hc, Hd in H;
      rewrite ?is_upper_range in *.
    + left. lia.
    + right; left. split; [assumption | congruence].
    + right; right. split; [assumption | congruence].
    + now left.
Qed.

Lemma eq_ignore_case_asciiLowerCase s t :
  eq_ignore_case s t <-> asciiLowerCase s = asciiLowerCase t.
Proof.
  unfold eq_ignore_case, asciiLowerCase. split.
  - induction 1 as [|c d s t Hcd _ IH]; simpl; [reflexivity|].
    apply same_letter_asciiLowerChar in Hcd. now rewrite Hcd, IH.
  - revert t. induction s as [|c s IH]; intros [|d t] H; simpl in H;
      try discriminate; constructor.
    + apply same_letter_asciiLowerChar. now injection H.
    + apply IH. now injection H.
Qed.





(** ** The filter *)

Lemma numberMatches_spec a term :
  term <> [] ->
  (numberMatches a term = true <->
   exists n, Account.number a = Some n /\ substring_of term n).
Proof.
  intros Hterm. unfold numberMatches.
  destruct (Account.number a) as [n|].
  - rewrite andb_true_iff, includes_substring, str_truthy_nonempty. split.
    + intros [_ H]. now exists n.
    + intros [n' [Hn H]]. injection Hn as <-. split; [|assumption].
      intros ->. destruct H as [pre [post H]].
      symmetry in H. apply app_eq_nil in H. destruct H as [_ H].
      apply app_eq_nil in H. now destruct H.
  - split; [discriminate | intros [n [H _]]; discriminate].
Qed.

Lemma matchesSearch_spec st a :
  matchesSearch st a = true <-> searchHolds (searchTerm st) a.
Proof.
  unfold matchesSearch, searchHolds.
  rewrite !orb_true_iff, str_eqb_eq, includes_substring.
  fold (occursIgnoringCase (searchTerm st) (Account.name a)).
  change (lit "") with (@nil N).
  destruct (str_eq_dec (searchTerm st) []) as [He|Hne].
  - split; intros _; left; [assumption | now left].
  - rewrite (numberMatches_spec a Hne). tauto.
Qed.




Lemma filter_andb (A : Type) (p q : A -> bool) (l : list A) :
  filter q (filter p l) = filter (fun x => p x && q x) l.
Proof.
  induction l as [|x l IH]; simpl; [reflexivity|].
  destruct (p x); simpl; [destruct (q x)|]; now rewrite IH.
Qed.

(** C7: for a fixed list of accounts, search term and type filter, what
    the filter keeps with [showInactive] off is among what it keeps with
    [showInactive] on; it is exactly the active part of it. *)
Theorem showInactive_grows (st : ViewState) :
  incl (filteredAccounts (setShowInactive false st))
       (filteredAccounts (setShowInactive true st)) /\
  filteredAccounts (setShowInactive false st) =
  filter Account.is_active (filteredAccounts (setShowInactive true st)).
Proof.
  assert (E : filteredAccounts (setShowInactive false st) =
              filter Account.is_active
                     (filteredAccounts (setShowInactive true st))).
  { unfold filteredAccounts.
    change (accounts (setShowInactive false st)) with (accounts st).
    change (accounts (setShowInactive true st)) with (accounts st).
    rewrite filter_andb. apply filter_ext. intros a.
    change (matchesSearch st a && matchesType st a && Account.is_active a =
            matchesSearch st a && matchesType st a && true
            && Account.is_active a).
    now rewrite andb_true_r. }
  split; [|exact E].
  intros a Ha. rewrite E in Ha. apply filter_In in Ha. tauto.
Qed.

(** ** The statistics *)

Lemma amount_falsy a : truthy (Account.balance a) = false -> amount a = ofZ 0.
Proof.
  unfold amount, truthy. destruct (Account.balance a) as [| |[|b]]; try reflexivity.
  intros H. apply negb_false_iff in H. now apply isZero_zero.
Qed.

Lemma addBalance_amount z a :
  addBalance (VNumber (Num z)) a = VNumber (Num (add z (amount a))).
Proof.
  unfold addBalance, or_else.
  destruct (truthy (Account.balance a)) eqn:Ht.
  - unfold amount. destruct (Account.balance a) as [| |[|b]];
      simpl in Ht; try discriminate. reflexivity.
  - now rewrite (amount_falsy a Ht).
Qed.

Lemma str_eqb_dec s t : str_eqb s t = if str_eq_dec s t then true else false.
Proof. reflexivity. Qed.

Lemma count_filter_type ty l :
  length (filter (fun account => str_eqb (Account.type account) ty) l) =
  countOfType ty l.
Proof.
  induction l as [|a l IH]; simpl; [reflexivity|].
  rewrite str_eqb_dec.
  destruct (str_eq_dec (Account.type a) ty); simpl; now rewrite IH.
Qed.

Lemma reduce_filter_type ty l z :
  reduce addBalance (VNumber (Num z))
         (filter (fun account => str_eqb (Account.type account) ty) l) =
  VNumber (Num (balanceOfTypeFrom ty z l)).
Proof.
  unfold reduce. revert z. induction l as [|a l IH]; intros z; simpl;
    [reflexivity|].
  rewrite str_eqb_dec.
  destruct (str_eq_dec (Account.type a) ty); simpl.
  - now rewrite addBalance_amount, IH.
  - apply IH.
Qed.

Lemma balanceOfTypeFrom_app ty l1 l2 z :
  balanceOfTypeFrom ty z (l1 ++ l2) =
  balanceOfTypeFrom ty (balanceOfTypeFrom ty z l1) l2.
Proof.
  revert z. induction l1 as [|a l1 IH]; intros z; simpl; [reflexivity|].
  apply IH.
Qed.

(** C5: [totalAccounts] is the number of loaded accounts, whatever the
    search term, the type filter and the inactive toggle are; it is not the
    number of filtered accounts (in the scenario of the specification two
    accounts are loaded and one passes the filter). *)
Theorem totalAccounts_all_loaded (st : ViewState) (term ft : str)
    (inactiveToo : bool) :
  totalAccounts (accountStats st) = length (accounts st) /\
  totalAccounts
    (accountStats
       (setSearchTerm term (setFilterType ft (setShowInactive inactiveToo st))))
  = length (accounts st) /\
  totalAccounts (accountStats (setAccounts scenarioAccounts initialState)) = 2 /\
  length (filteredAccounts (setAccounts scenarioAccounts initialState)) = 1.
Proof.
  repeat split.
Qed.

Lemma stats_of_loaded (st : ViewState) :
  bankAccounts (accountStats st) = countOfType (lit "Bank") (accounts st) /\
  totalBankBalance (accountStats st) =
    VNumber (Num (balanceOfType (lit "Bank") (accounts st))) /\
  totalAssets (accountStats st) =
    VNumber (Num (balanceOfType (lit "Fixed Asset") (accounts st))) /\
  totalLiabilities (accountStats st) =
    VNumber (Num (balanceOfType (lit "Accounts Payable") (accounts st))).
Proof.
  unfold accountStats, balanceOfType; simpl.
  rewrite count_filter_type. unfold zero. rewrite !reduce_filter_type.
  repeat split.
Qed.

(** C6: the statistics are computed from all loaded accounts:
    [bankAccounts] counts the accounts of type "Bank", and
    [totalBankBalance], [totalAssets] and [totalLiabilities] are the sums
    of the balances of the accounts of type "Bank", "Fixed Asset" and
    "Accounts Payable", added from 0 in the order of the list with the
    addition of the language (rounding and all; a missing balance counts
    as 0).  For the two accounts of the scenario [totalAssets] is 500
    whether inactive accounts are shown or not. *)
Theorem accountStats_unfiltered (st : ViewState) (inactiveToo : bool) :
  bankAccounts (accountStats st) = countOfType (lit "Bank") (accounts st) /\
  totalBankBalance (accountStats st) =
    VNumber (Num (balanceOfType (lit "Bank") (accounts st))) /\
  totalAssets (accountStats st) =
    VNumber (Num (balanceOfType (lit "Fixed Asset") (accounts st))) /\
  totalLiabilities (accountStats st) =
    VNumber (Num (balanceOfType (lit "Accounts Payable") (accounts st))) /\
  totalAssets
    (accountStats (setShowInactive inactiveToo (setAccounts scenarioAccounts st)))
  = VNumber (Num (ofZ 500)).
Proof.
  destruct (stats_of_loaded st) as (Hn & Hb & Hf & Hp).
  destruct (stats_of_loaded
              (setShowInactive inactiveToo (setAccounts scenarioAccounts st)))
    as (_ & _ & Hs & _).
  repeat split; try assumption.
  rewrite Hs. unfold balanceOfType. simpl. now rewrite add_zero_l.
Qed.

Lemma balanceOfType_without ty l1 a l2 :
  truthy (Account.balance a) = false ->
  balanceOfType ty (l1 ++ a :: l2) = balanceOfType ty (l1 ++ l2).
Proof.
  intros H. unfold balanceOfType. rewrite !balanceOfTypeFrom_app. simpl.
  destruct (str_eq_dec (Account.type a) ty); [|reflexivity].
  now rewrite (amount_falsy a H), add_zero_r.
Qed.

Lemma balanceOfType_skip ty l1 a l2 :
  Account.type a <> ty ->
  balanceOfType ty (l1 ++ a :: l2) = balanceOfType ty (l1 ++ l2).
Proof.
  intros H. unfold balanceOfType. rewrite !balanceOfTypeFrom_app. simpl.
  destruct (str_eq_dec (Account.type a) ty); [contradiction | reflexivity].
Qed.

(** Without the [|| 0] guard a missing balance would turn the sum into
    [NaN]. *)
Remark unguarded_sum_is_NaN z : plus (VNumber (Num z)) VUndefined = VNumber NaN.
Proof. reflexivity. Qed.

(** C9: an account whose balance is missing, [null] or otherwise falsy
    adds 0 in each of the three sums: the callback leaves a numeric running
    sum as it is, the three totals are those of the list without that
    account, and they are numbers. *)
Theorem falsy_balance_adds_zero (st : ViewState) (l1 l2 : list Account.t)
    (a : Account.t) :
  truthy (Account.balance a) = false ->
  let withA := accountStats (setAccounts (l1 ++ a :: l2) st) in
  let withoutA := accountStats (setAccounts (l1 ++ l2) st) in
  (forall z, addBalance (VNumber (Num z)) a = VNumber (Num z)) /\
  totalBankBalance withA = totalBankBalance withoutA /\
  totalAssets withA = totalAssets withoutA /\
  totalLiabilities withA = totalLiabilities withoutA /\
  exists b f p : num,
    totalBankBalance withA = VNumber (Num b) /\
    totalAssets withA = VNumber (Num f) /\
    totalLiabilities withA = VNumber (Num p).
Proof.
  intros H withA withoutA.
  pose proof (stats_of_loaded (setAccounts (l1 ++ a :: l2) st))
    as (_ & Hb & Hf & Hp).
  pose proof (stats_of_loaded (setAccounts (l1 ++ l2) st))
    as (_ & Hb' & Hf' & Hp').
  simpl accounts in *. fold withA in Hb, Hf, Hp. fold withoutA in Hb', Hf', Hp'.
  rewrite Hb, Hf, Hp, Hb', Hf', Hp', !(balanceOfType_without _ l1 a l2 H).
  split.
  - intros z. rewrite addBalance_amount, (amount_falsy a H). now rewrite add_zero_r.
  - repeat split. eexists _, _, _. repeat split.
Qed.

(** C10: the statistics compare the type with "Bank" exactly, the filter
    compares it up to case.  An active account whose type is "Bank" up to
    case but not letter for letter is kept by the filter under the type
    filter "bank", and is neither counted in [bankAccounts] nor added to
    [totalBankBalance]. *)
Theorem type_case_mismatch (st : ViewState) (a : Account.t) :
  eq_ignore_case (Account.type a) (lit "Bank") ->
  Account.type a <> lit "Bank" ->
  Account.is_active a = true ->
  let st' := setFilterType (lit "bank") (setSearchTerm (lit "") (setAccounts [a] st)) in
  filteredAccounts st' = [a] /\
  bankAccounts (accountStats st') = 0 /\
  totalBankBalance (accountStats st') = zero.
Proof.
  intros Hci Hne Hact st'.
  apply toLowerCase_letter_case in Hci.
  assert (Hbank : toLowerCase (lit "Bank") = toLowerCase (lit "bank")).
  { apply toLowerCase_letter_case, eq_ignore_case_asciiLowerCase. reflexivity. }
  apply str_eqb_neq in Hne.
  unfold filteredAccounts, accountStats, matchesSearch, matchesType, matchesActive.
  simpl accounts. simpl filterType. simpl searchTerm. simpl filter.
  rewrite Hne, Hact, Hci, Hbank, str_eqb_refl, !orb_true_r. repeat split.
Qed.

(** ** Loading *)

(** C2: when the fetch of [loadAccounts] is rejected, [error] becomes the
    message of the rejection, or "Failed to load accounts" when there is
    none (a message that is the empty string counts as none, as
    [err.message || ...] has it); [loading] ends false; and [accounts] is
    what it was before the call.  The last two also hold for the code
    after the [await] alone, from whatever state it resumes in. *)
Theorem loadAccounts_rejected (sc : Scope) (service : Request -> Outcome)
    (st : ViewState) (company : Company.t) (err : Failure) :
  currentCompany sc = Some company ->
  service (requestOf company (state sc)) = Rejected err ->
  let st' := loadAccounts sc service st in
  (forall m, message err = Some m -> m <> [] -> error st' = Some m) /\
  (message err = None -> error st' = Some (lit "Failed to load accounts")) /\
  (message err = Some [] -> error st' = Some (lit "Failed to load accounts")) /\
  loading st' = false /\
  accounts st' = accounts st /\
  (forall st2, loading (loadAccounts_resume (Rejected err) st2) = false /\
               accounts (loadAccounts_resume (Rejected err) st2) = accounts st2).
Proof.
  intros Hc Hs st'. unfold st', loadAccounts. rewrite Hc, Hs.
  unfold loadAccounts_resume, loadAccounts_begin, errorText. simpl.
  repeat split.
  - intros m Hm Hne. rewrite Hm. destruct m; [contradiction | reflexivity].
  - intros Hm. now rewrite Hm.
  - intros Hm. now rewrite Hm.
Qed.

(** C8: when the fetch succeeds [loadAccounts] stores the [data] list of
    the response, or the empty list when the response has none; and
    [loading] is false at the end of every run: fetch resolved, fetch
    rejected, or no company to read the id of. *)
Theorem loadAccounts_exits (sc : Scope) (service : Request -> Outcome)
    (st : ViewState) (company : Company.t) (l : list Account.t) (o : Outcome) :
  loading (loadAccounts sc service st) = false /\
  loading (loadAccounts_resume o st) = false /\
  accounts (loadAccounts {| currentCompany := Some company; state := state sc |}
                         (fun _ => Resolved {| data := Some l |}) st) = l /\
  accounts (loadAccounts {| currentCompany := Some company; state := state sc |}
                         (fun _ => Resolved {| data := None |}) st) = [] /\
  accounts (loadAccounts_resume (Resolved {| data := Some l |}) st) = l /\
  accounts (loadAccounts_resume (Resolved {| data := None |}) st) = [].
Proof.
  repeat split.
  unfold loadAccounts. destruct (currentCompany sc); reflexivity.
Qed.

(** ** The debounce timer *)

Lemma depsChanged_change e st :
  changes e st -> depsChanged st (applyFilter e st) = true.
Proof.
  intros H. unfold depsChanged. destruct H as [v st H|v st H|st]; simpl.
  - assert (E : str_eqb (searchTerm st) v = false)
      by (apply str_eqb_neq; congruence).
    now rewrite E.
  - assert (E : str_eqb (filterType st) v = false)
      by (apply str_eqb_neq; congruence).
    now rewrite E, andb_false_r.
  - rewrite !str_eqb_refl. now destruct (showInactive st).
Qed.

Lemma render_filtersShown m :
  filtersShown m -> exists panel, render (scopeOf m) = MainView panel.
Proof.
  intros (Hl & He & Hc). unfold render. simpl. rewrite Hl, He.
  destruct (company m); [eauto | contradiction].
Qed.

Lemma runCleanup_timersOk m : timersOk m -> timers (runCleanup m) = [].
Proof.
  unfold runCleanup. intros [H | (t & Ht & Hc & _)].
  - destruct (cleanup m); simpl; [|assumption]. now rewrite H.
  - rewrite Hc. simpl. rewrite Ht. simpl. now rewrite Nat.eqb_refl.
Qed.

Lemma runCleanup_fields m : runCleanup m = setTimers (timers (runCleanup m)) m.
Proof.
  unfold runCleanup. destruct (cleanup m); [reflexivity|].
  now destruct m.
Qed.

(** A change made while a company is selected clears the pending timer and
    sets a new one. *)
Lemma step_change m e :
  timersOk m -> filtersShown m -> hasCompanyId (company m) = true ->
  changes e (view m) ->
  step m e = scheduled m (applyFilter e (view m)).
Proof.
  intros Hok Hshown Hid Hch.
  destruct (render_filtersShown Hshown) as [panel Hr].
  pose proof (depsChanged_change Hch) as Hd.
  pose proof (runCleanup_timersOk (m := updView (applyFilter e) m) Hok) as Hts.
  assert (E : changeFilter (applyFilter e) m = scheduled m (applyFilter e (view m))).
  { unfold changeFilter. simpl. rewrite Hd.
    unfold debounceEffect. simpl. rewrite Hid.
    rewrite (runCleanup_fields (updView (applyFilter e) m)), Hts.
    reflexivity. }
  unfold step, enabled. destruct Hch; rewrite Hr; exact E.
Qed.

Lemma elapse_waiting m t dt :
  timers m = [t] -> (now m + dt < deadline t)%N ->
  elapse dt m = setNow (now m + dt) m.
Proof.
  intros Ht Hlt. unfold elapse. rewrite Ht. simpl.
  apply N.leb_gt in Hlt. rewrite Hlt. simpl.
  unfold setTimers, setNow. simpl. now rewrite Ht.
Qed.

Lemma elapse_firing m t dt :
  timers m = [t] -> (now m <= deadline t <= now m + dt)%N ->
  elapse dt m =
  setNow (now m + dt)
    (callLoadAccounts (callback t) false (setNow (deadline t) (setTimers [] m))).
Proof.
  intros Ht [Hlo Hhi]. unfold elapse. rewrite Ht. simpl.
  apply N.leb_le in Hhi. rewrite Hhi. simpl.
  unfold fire. simpl. now rewrite N.max_r.
Qed.

Lemma elapse_idle m dt : timers m = [] -> elapse dt m = setNow (now m + dt) m.
Proof.
  intros Ht. unfold elapse. rewrite Ht. simpl.
  unfold setTimers, setNow. simpl. now rewrite Ht.
Qed.

(** *** At most one timer is ever pending *)

Lemma timersOk_same m m' :
  timers m' = timers m -> cleanup m' = cleanup m -> now m' = now m ->
  timersOk m -> timersOk m'.
Proof.
  unfold timersOk. intros -> -> ->. tauto.
Qed.

Lemma timersOk_callLoadAccounts sc refresh m :
  timersOk m -> timersOk (callLoadAccounts sc refresh m).
Proof.
  apply timersOk_same; unfold callLoadAccounts;
    destruct (currentCompany sc); reflexivity.
Qed.

Lemma timersOk_debounceEffect sc m :
  timers m = [] -> timersOk (debounceEffect sc m).
Proof.
  intros Ht. unfold debounceEffect, timersOk.
  destruct (hasCompanyId (currentCompany sc)); simpl; rewrite Ht.
  - right. eexists. repeat split. simpl. lia.
  - now left.
Qed.

Lemma timersOk_changeFilter f m : timersOk m -> timersOk (changeFilter f m).
Proof.
  intros Hok. unfold changeFilter.
  destruct (depsChanged _ _); [|exact Hok].
  apply timersOk_debounceEffect.
  exact (runCleanup_timersOk (m := updView f m) Hok).
Qed.

Lemma timersOk_elapse dt m : timersOk m -> timersOk (elapse dt m).
Proof.
  intros [Ht | (t & Ht & Hc & Hlt)].
  - rewrite (elapse_idle _ dt Ht). now left.
  - destruct (N.le_gt_cases (deadline t) (now m + dt)) as [Hdue | Hwait].
    + rewrite (elapse_firing m dt Ht) by lia.
      left. unfold callLoadAccounts.
      destruct (currentCompany (callback t)); reflexivity.
    + rewrite (elapse_waiting m dt Ht Hwait).
      right. exists t. simpl. auto.
Qed.

Lemma timersOk_settle fid o m : timersOk m -> timersOk (settle fid o m).
Proof.
  unfold settle. destruct (find _ _) as [p|]; [|trivial].
  apply timersOk_same; destruct (fromRefresh p); reflexivity.
Qed.

Lemma timersOk_step m e : timersOk m -> timersOk (step m e).
Proof.
  intros Hok. unfold step. destruct (enabled e m); [|exact Hok].
  destruct e.
  - now apply timersOk_changeFilter.
  - now apply timersOk_changeFilter.
  - now apply timersOk_changeFilter.
  - unfold handleRefresh.
    assert (H : timersOk (callLoadAccounts (scopeOf m) true
                                           (updView (setRefreshing true) m)))
      by now apply timersOk_callLoadAccounts.
    now destruct (company m).
  - unfold companyChanged. destruct (sameDep _ _); [exact Hok|].
    unfold companyEffect. destruct (hasCompanyId _); [|exact Hok].
    now apply timersOk_callLoadAccounts.
  - now apply timersOk_elapse.
  - now apply timersOk_settle.
Qed.

Lemma timersOk_mount c t0 : timersOk (mount c t0).
Proof.
  unfold mount. apply timersOk_debounceEffect.
  unfold companyEffect, callLoadAccounts. simpl.
  destruct (hasCompanyId c); [destruct c|]; reflexivity.
Qed.

Lemma reachable_timersOk m : reachable m -> timersOk m.
Proof.
  induction 1; [apply timersOk_mount | now apply timersOk_step].
Qed.

(** *** Bursts of changes *)

Lemma run_app m es1 es2 : run m (es1 ++ es2) = run (run m es1) es2.
Proof. apply fold_left_app. Qed.

Lemma applyFilter_keeps e st :
  loading (applyFilter e st) = loading st /\
  errorShown (applyFilter e st) = errorShown st.
Proof. destruct e; split; reflexivity. Qed.

Lemma hasCompanyId_some m c :
  company m = Some c -> Company.id c <> [] -> hasCompanyId (company m) = true.
Proof.
  intros -> H. simpl. now apply str_truthy_nonempty.
Qed.

Lemma step_elapse m d : step m (Elapse d) = elapse d m.
Proof. reflexivity. Qed.

(** A change followed by less than 500 ms of quiet: the timer is pending
    and nothing was fetched. *)
Lemma change_then_wait m e d :
  timersOk m -> filtersShown m -> hasCompanyId (company m) = true ->
  changes e (view m) -> (d < 500)%N ->
  run m [e; Elapse d] = setNow (now m + d) (scheduled m (applyFilter e (view m))).
Proof.
  intros Hok Hshown Hid Hch Hd.
  change (run m [e; Elapse d]) with (step (step m e) (Elapse d)).
  rewrite (step_change Hok Hshown Hid Hch), step_elapse.
  apply (elapse_waiting (scheduled m (applyFilter e (view m))) d eq_refl).
  simpl. lia.
Qed.

Lemma waiting_state_ok m st' d :
  filtersShown m -> (d < 500)%N ->
  loading st' = loading (view m) -> errorShown st' = errorShown (view m) ->
  timersOk (setNow (now m + d) (scheduled m st')) /\
  filtersShown (setNow (now m + d) (scheduled m st')).
Proof.
  intros (Hl & He & Hc) Hd Hl' He'. split.
  - right. eexists. repeat split. simpl. lia.
  - unfold filtersShown. simpl. rewrite Hl', He'. auto.
Qed.

(** A change followed by at least 500 ms of quiet: exactly one fetch, made
    500 ms after the change with the filters of that change. *)
Lemma change_then_quiet m e d c :
  timersOk m -> filtersShown m -> company m = Some c -> Company.id c <> [] ->
  changes e (view m) -> (500 <= d)%N ->
  calls (run m [e; Elapse d]) =
  calls m ++ [{| calledAt := now m + 500;
                 request := requestOf c (applyFilter e (view m)) |}] /\
  timers (run m [e; Elapse d]) = [].
Proof.
  intros Hok Hshown Hc Hid Hch Hd.
  change (run m [e; Elapse d]) with (step (step m e) (Elapse d)).
  rewrite (step_change Hok Hshown (hasCompanyId_some m Hc Hid) Hch).
  rewrite step_elapse.
  rewrite (elapse_firing (scheduled m (applyFilter e (view m))) d eq_refl)
    by (simpl; lia).
  unfold callLoadAccounts. simpl. rewrite Hc. simpl. auto.
Qed.

(** C3: with a company selected and the filter controls on screen, a change
    of a filter sets a timer due 500 ms later; a further change made before
    that clears the pending timer without any fetch and sets a new one; so
    three changes, each less than 500 ms after the one before, followed by
    500 ms of quiet, make exactly one [getAccounts] call, 500 ms after the
    third change and with the filters as the third change left them. *)
Theorem debounce_three_changes (m : Component) (c : Company.t)
    (e1 e2 e3 : Event) (d1 d2 d3 : N) :
  reachable m ->
  filtersShown m -> company m = Some c -> Company.id c <> [] ->
  changes e1 (view m) ->
  changes e2 (applyFilter e1 (view m)) ->
  changes e3 (applyFilter e2 (applyFilter e1 (view m))) ->
  (d1 < 500)%N -> (d2 < 500)%N -> (500 <= d3)%N ->
  let st3 := applyFilter e3 (applyFilter e2 (applyFilter e1 (view m))) in
  map deadline (timers (run m [e1])) = [(now m + 500)%N] /\
  calls (run m [e1; Elapse d1; e2]) = calls m /\
  map deadline (timers (run m [e1; Elapse d1; e2])) = [(now m + d1 + 500)%N] /\
  calls (run m [e1; Elapse d1; e2; Elapse d2; e3; Elapse d3]) =
    calls m ++ [{| calledAt := now m + d1 + d2 + 500;
                   request := requestOf c st3 |}] /\
  timers (run m [e1; Elapse d1; e2; Elapse d2; e3; Elapse d3]) = [].
Proof.
  intros Hr Hshown Hc Hid H1 H2 H3 Hd1 Hd2 Hd3 st3.
  pose proof (reachable_timersOk Hr) as Hok.
  pose proof (hasCompanyId_some m Hc Hid) as Hhas.
  set (st1 := applyFilter e1 (view m)) in *.
  set (st2 := applyFilter e2 st1) in *.
  set (m1 := setNow (now m + d1) (scheduled m st1)).
  set (m2 := setNow (now m1 + d2) (scheduled m1 st2)).
  destruct (applyFilter_keeps e1 (view m)) as [Hl1 He1].
  destruct (applyFilter_keeps e2 st1) as [Hl2 He2].
  destruct (waiting_state_ok st1 Hshown Hd1 Hl1 He1) as [Hok1 Hshown1].
  fold m1 in Hok1, Hshown1.
  destruct (waiting_state_ok (m := m1) st2 Hshown1 Hd2 Hl2 He2)
    as [Hok2 Hshown2].
  fold m2 in Hok2, Hshown2.
  assert (E1 : run m [e1; Elapse d1] = m1)
    by exact (change_then_wait Hok Hshown Hhas H1 Hd1).
  assert (E2 : run m1 [e2; Elapse d2] = m2)
    by exact (change_then_wait (m := m1) Hok1 Hshown1 Hhas H2 Hd2).
  assert (S2 : run m [e1; Elapse d1; e2] = scheduled m1 st2).
  { change [e1; Elapse d1; e2] with ([e1; Elapse d1] ++ [e2]).
    rewrite run_app, E1. simpl.
    exact (step_change (m := m1) Hok1 Hshown1 Hhas H2). }
  split; [|split; [|split]].
  - simpl. now rewrite (step_change Hok Hshown Hhas H1).
  - now rewrite S2.
  - now rewrite S2.
  - change [e1; Elapse d1; e2; Elapse d2; e3; Elapse d3]
      with ([e1; Elapse d1] ++ [e2; Elapse d2] ++ [e3; Elapse d3]).
    rewrite !run_app, E1, E2.
    destruct (change_then_quiet (m := m2) (c := c) Hok2 Hshown2 Hc Hid H3 Hd3)
      as [Hcalls Htimers].
    rewrite Hcalls, Htimers. split; reflexivity.
Qed.

(** ** No company selected *)

Lemma idleWithoutCompany_mount t0 : idleWithoutCompany (mount None t0).
Proof. repeat split. Qed.

Lemma idleWithoutCompany_render m :
  idleWithoutCompany m -> render (scopeOf m) = LoadingView.
Proof.
  intros (_ & Hl & _). unfold render. simpl. now rewrite Hl.
Qed.

Lemma idleWithoutCompany_step m e :
  keepsNoCompany e = true -> idleWithoutCompany m ->
  idleWithoutCompany (step m e).
Proof.
  intros He Hidle.
  pose proof (idleWithoutCompany_render Hidle) as Hr.
  destruct Hidle as (Hc & Hl & Ht & Hf & Hcalls).
  unfold step, enabled. rewrite Hr.
  destruct e as [v|v| | |c|dt|fid o]; simpl;
    try (repeat split; assumption).
  - destruct c as [c|]; [discriminate|].
    unfold companyChanged. rewrite Hc. simpl. repeat split; assumption.
  - rewrite (elapse_idle m dt Ht). repeat split; assumption.
  - unfold settle. rewrite Hf. simpl. repeat split; assumption.
Qed.

(** C4, as the code has it: mounted without a company, the component
    makes no [getAccounts] call, but what it renders is the loading
    spinner, not the prompt to select a company; [loading] starts true and
    only [loadAccounts] clears it.  This stays so whatever happens, until a
    company is selected. *)
Theorem no_company_spinner (t0 : N) (es : list Event) :
  forallb keepsNoCompany es = true ->
  let m := run (mount None t0) es in
  calls m = [] /\
  render (scopeOf m) = LoadingView /\
  render (scopeOf m) <> SelectCompanyView.
Proof.
  intros Hes m.
  assert (Hidle : idleWithoutCompany m).
  { unfold m, run. generalize (idleWithoutCompany_mount t0).
    generalize (mount None t0) as m0.
    induction es as [|e es IH]; intros m0 H0; simpl; [exact H0|].
    simpl in Hes. apply andb_true_iff in Hes. destruct Hes as [He Hes].
    apply (IH Hes). now apply idleWithoutCompany_step. }
  rewrite (idleWithoutCompany_render Hidle).
  destruct Hidle as (_ & _ & _ & _ & Hcalls).
  repeat split; [assumption | discriminate].
Qed.

(** * Further properties of the component *)

(** ** The request and the client-side filter *)

(** X1: the [getAccounts] call is for the id of the company, always with
    limit 1000, and it carries no filter option at all exactly when the
    search term is empty, the type filter is literally "all" and inactive
    accounts are shown. *)
Theorem request_without_filters (c : Company.t) (st : ViewState) :
  companyId (requestOf c st) = Company.id c /\
  Options.limit (options (requestOf c st)) = 1000%Z /\
  ((Options.search (options (requestOf c st)) = None /\
    Options.account_type (options (requestOf c st)) = None /\
    Options.is_active (options (requestOf c st)) = None) <->
   (searchTerm st = [] /\ filterType st = lit "all" /\ showInactive st = true)).
Proof.
  unfold requestOf; simpl. split; [reflexivity|]. split; [reflexivity|].
  split.
  - intros (Hs & Ht & Ha). repeat split.
    + destruct (searchTerm st); [reflexivity | discriminate].
    + destruct (str_eqb (filterType st) (lit "all")) eqn:E; [|discriminate].
      now apply str_eqb_eq.
    + now destruct (showInactive st).
  - intros (-> & -> & ->). now rewrite str_eqb_refl.
Qed.

(** X2: when the request of a state carries no filter option, the
    client-side filter of that state keeps every loaded account, in
    order. *)
Theorem unfiltered_request_keeps_all (c : Company.t) (st : ViewState) :
  Options.search (options (requestOf c st)) = None ->
  Options.account_type (options (requestOf c st)) = None ->
  Options.is_active (options (requestOf c st)) = None ->
  filteredAccounts st = accounts st.
Proof.
  unfold requestOf; simpl. intros Hs Ht Ha.
  unfold filteredAccounts.
  rewrite (filter_ext _ (fun _ => true)).
  - induction (accounts st) as [|a l IH]; simpl; [reflexivity | now rewrite IH].
  - intros a. unfold matchesSearch, matchesType, matchesActive.
    destruct (searchTerm st); [|discriminate].
    destruct (str_eqb (filterType st) (lit "all")); [|discriminate].
    destruct (showInactive st); [|discriminate].
    reflexivity.
Qed.

Lemma substring_of_trans t u s :
  substring_of t u -> substring_of u s -> substring_of t s.
Proof.
  intros (p & q & ->) (pre & post & ->).
  exists (pre ++ p), (q ++ post). now rewrite <- !app_assoc.
Qed.

Lemma asciiLowerCase_substring t u :
  substring_of t u -> substring_of (asciiLowerCase t) (asciiLowerCase u).
Proof.
  intros (p & q & ->). exists (asciiLowerCase p), (asciiLowerCase q).
  unfold asciiLowerCase. now rewrite !map_app.
Qed.

Lemma asciiOnly_substring t u : substring_of t u -> asciiOnly u -> asciiOnly t.
Proof.
  unfold asciiOnly. intros (p & q & ->) H.
  apply Forall_app in H. destruct H as [_ H].
  apply Forall_app in H. tauto.
Qed.

Lemma searchHolds_shorter t t' a :
  substring_of t t' -> asciiOnly t' -> asciiOnly (Account.name a) ->
  searchHolds t' a -> searchHolds t a.
Proof.
  intros Hsub Ht' Hname [-> | [Hocc | (n & Hn & Hnum)]].
  - left. destruct Hsub as (p & q & H). symmetry in H.
    apply app_eq_nil in H. destruct H as [_ H].
    apply app_eq_nil in H. now destruct H.
  - right; left. unfold occursIgnoringCase in *.
    pose proof (asciiOnly_substring Hsub Ht') as Ht.
    rewrite (toLowerCase_ascii Ht'), (toLowerCase_ascii Hname) in Hocc.
    rewrite (toLowerCase_ascii Ht), (toLowerCase_ascii Hname).
    exact (substring_of_trans (asciiLowerCase_substring Hsub) Hocc).
  - right; right. exists n. split; [assumption|].
    exact (substring_of_trans Hsub Hnum).
Qed.

(** X3: with ASCII names and an ASCII search term, typing more never adds
    rows: if the search term [t] occurs inside the ASCII search term [t']
    and the names of the loaded accounts are ASCII, every account kept
    under [t'] is kept under [t].  (Outside ASCII the lower-casing of a
    string is not made of the lower-casings of its parts, and the property
    does not hold.) *)
Theorem longer_term_fewer_rows (st : ViewState) (t t' : str) :
  substring_of t t' ->
  asciiOnly t' ->
  Forall (fun a => asciiOnly (Account.name a)) (accounts st) ->
  incl (filteredAccounts (setSearchTerm t' st))
       (filteredAccounts (setSearchTerm t st)).
Proof.
  intros Hsub Hascii Hnames a. unfold filteredAccounts.
  rewrite !filter_In, !andb_true_iff, !matchesSearch_spec.
  change (accounts (setSearchTerm t' st)) with (accounts st).
  change (accounts (setSearchTerm t st)) with (accounts st).
  change (matchesType (setSearchTerm t' st) a)
    with (matchesType (setSearchTerm t st) a).
  change (matchesActive (setSearchTerm t' st) a)
    with (matchesActive (setSearchTerm t st) a).
  simpl searchTerm.
  intros (Hin & (Hs & Ht) & Ha). repeat split; try assumption.
  rewrite Forall_forall in Hnames.
  exact (searchHolds_shorter Hsub Hascii (Hnames a Hin) Hs).
Qed.

(** X4: the type filter does not depend on the case of its letters: two
    filter values that are equal up to case, neither of them the literal
    "all", keep the same accounts. *)
Theorem type_filter_ignores_case (st : ViewState) (ft ft' : str) :
  eq_ignore_case ft ft' -> ft <> lit "all" -> ft' <> lit "all" ->
  filteredAccounts (setFilterType ft st) = filteredAccounts (setFilterType ft' st).
Proof.
  intros Hci Hft Hft'. apply toLowerCase_letter_case in Hci.
  apply str_eqb_neq in Hft. apply str_eqb_neq in Hft'.
  unfold filteredAccounts.
  change (accounts (setFilterType ft st)) with (accounts st).
  change (accounts (setFilterType ft' st)) with (accounts st).
  apply filter_ext. intros a.
  unfold matchesType. simpl filterType. now rewrite Hft, Hft', Hci.
Qed.

(** ** The main view *)

(** X5: when the main view is rendered, nothing is loading, no error is
    shown and a company is selected; its table rows are the filtered
    accounts; the "No accounts found" notice is there exactly when the
    table has no row; and neither the number of rows nor the Bank Accounts
    card exceeds the Total Accounts card. *)
Theorem main_view_consistent (sc : Scope) (panel : MainPanel) :
  render sc = MainView panel ->
  loading (state sc) = false /\
  errorShown (state sc) = None /\
  currentCompany sc <> None /\
  rows panel = filteredAccounts (state sc) /\
  (noAccountsFound panel = true <-> rows panel = []) /\
  length (rows panel) <= cardTotalAccounts panel /\
  cardBankAccounts panel <= cardTotalAccounts panel.
Proof.
  unfold render.
  destruct (loading (state sc)); [discriminate|].
  destruct (errorShown (state sc)); [discriminate|].
  destruct (currentCompany sc); [|discriminate].
  intros H. injection H as <-. simpl.
  repeat split; try discriminate.
  - intros H. apply Nat.eqb_eq in H. now apply length_zero_iff_nil.
  - intros ->. reflexivity.
  - apply filter_length_le.
  - apply filter_length_le.
Qed.

(** X6: the colour of a balance cell and the totals read a balance
    differently in two cases only: a balance that is [undefined] or [NaN]
    is shown as negative although it adds 0 to the totals.  In every other
    case the cell is green exactly when the amount added is at least 0. *)
Theorem balance_colour_and_amount (a : Account.t) :
  balanceNonNegative a <> nonNegative (amount a) <->
  (Account.balance a = VUndefined \/ Account.balance a = VNumber NaN).
Proof.
  unfold balanceNonNegative, amount.
  destruct (Account.balance a) as [| |[|z]]; simpl;
    rewrite ?nonNegative_zero; split;
    try (intros H; now contradiction H);
    try (intros [H|H]; discriminate);
    try discriminate; auto.
Qed.

Lemma countOfType_app ty l1 l2 :
  countOfType ty (l1 ++ l2) = countOfType ty l1 + countOfType ty l2.
Proof.
  induction l1 as [|a l1 IH]; simpl; [reflexivity|].
  destruct (str_eq_dec (Account.type a) ty); now rewrite IH.
Qed.

(** X7: an account whose type is none of "Bank", "Fixed Asset" and
    "Accounts Payable" (letter for letter) is counted in [totalAccounts]
    and in nothing else: the other four statistics are those of the list
    without it. *)
Theorem other_type_only_counted (st : ViewState) (l1 l2 : list Account.t)
    (a : Account.t) :
  Account.type a <> lit "Bank" ->
  Account.type a <> lit "Fixed Asset" ->
  Account.type a <> lit "Accounts Payable" ->
  let withA := accountStats (setAccounts (l1 ++ a :: l2) st) in
  let withoutA := accountStats (setAccounts (l1 ++ l2) st) in
  bankAccounts withA = bankAccounts withoutA /\
  totalBankBalance withA = totalBankBalance withoutA /\
  totalAssets withA = totalAssets withoutA /\
  totalLiabilities withA = totalLiabilities withoutA /\
  totalAccounts withA = S (totalAccounts withoutA).
Proof.
  intros Hb Hf Hp withA withoutA.
  destruct (stats_of_loaded (setAccounts (l1 ++ a :: l2) st))
    as (Hn & Hbb & Hfa & Hap).
  destruct (stats_of_loaded (setAccounts (l1 ++ l2) st))
    as (Hn' & Hbb' & Hfa' & Hap').
  simpl accounts in *.
  fold withA in Hn, Hbb, Hfa, Hap. fold withoutA in Hn', Hbb', Hfa', Hap'.
  rewrite Hn, Hbb, Hfa, Hap, Hn', Hbb', Hfa', Hap'.
  rewrite (@balanceOfType_skip _ l1 a l2 Hb), (@balanceOfType_skip _ l1 a l2 Hf),
    (@balanceOfType_skip _ l1 a l2 Hp).
  rewrite !countOfType_app. simpl.
  destruct (str_eq_dec (Account.type a) (lit "Bank")); [contradiction|].
  repeat split.
  unfold withA, withoutA. simpl. rewrite !length_app. simpl. lia.
Qed.

(** ** What is on screen after a load *)

(** X8: a rejected fetch always ends in the error view, with a text that
    is not empty, whatever the state it resumes in and whether or not a
    company is selected. *)
Theorem failed_load_shows_error (c : option Company.t) (st : ViewState)
    (err : Failure) :
  render {| currentCompany := c;
            state := loadAccounts_resume (Rejected err) st |}
  = ErrorView (errorText err) /\
  errorText err <> [].
Proof.
  assert (H : str_truthy (errorText err) = true).
  { unfold errorText. destruct (message err) as [[|ch m]|]; reflexivity. }
  split; [|now apply str_truthy_nonempty].
  unfold render, errorShown. simpl. now rewrite H.
Qed.

(** X9: a run of [loadAccounts] whose fetch resolves, with a company
    selected and nothing else in between, ends in the main view: an error
    shown before is gone, the rows are the filter of the new list and the
    Total Accounts card is its length. *)
Theorem successful_load_shows_accounts (c : Company.t) (sc : Scope)
    (st : ViewState) (r : Response) :
  exists panel,
    render {| currentCompany := Some c;
              state := loadAccounts
                         {| currentCompany := Some c; state := state sc |}
                         (fun _ => Resolved r) st |}
    = MainView panel /\
    rows panel = filteredAccounts (setAccounts (dataOrEmpty r) st) /\
    cardTotalAccounts panel = length (dataOrEmpty r).
Proof.
  eexists. repeat split.
Qed.

(** ** Fetches in flight *)

Lemma inFlightOk_same m m' :
  inFlight m' = inFlight m -> calls m' = calls m ->
  inFlightOk m -> inFlightOk m'.
Proof.
  unfold inFlightOk. intros -> ->. tauto.
Qed.

Lemma inFlightOk_callLoadAccounts sc refresh m :
  inFlightOk m -> inFlightOk (callLoadAccounts sc refresh m).
Proof.
  intros [Hlt Hnd]. unfold callLoadAccounts.
  destruct (currentCompany sc) as [c|]; [|split; assumption].
  unfold inFlightOk. simpl. rewrite length_app, map_app. simpl. split.
  - apply Forall_app. split.
    + eapply Forall_impl; [|exact Hlt]. simpl. intros p Hp. lia.
    + constructor; [simpl; lia | constructor].
  - apply NoDup_app; [assumption | constructor; [intros []| constructor] |].
    intros x Hx [<-|[]]. apply in_map_iff in Hx. destruct Hx as (p & Hp & Hin).
    rewrite Forall_forall in Hlt. specialize (Hlt p Hin). lia.
Qed.

Lemma ids_distinct_after_filter (keep : Pending -> bool) (ps : list Pending) :
  NoDup (map fetchId ps) -> NoDup (map fetchId (filter keep ps)).
Proof.
  induction ps as [|q ps IH]; simpl; intros Hnd; [constructor|].
  apply NoDup_cons_iff in Hnd. destruct Hnd as [Hfresh Hrest].
  destruct (keep q); simpl; [|auto].
  apply NoDup_cons_iff. split; [|auto].
  rewrite in_map_iff in *. intros (q' & Hid & Hq').
  apply filter_In in Hq'. apply Hfresh. exists q'. tauto.
Qed.

Lemma inFlightOk_settle fid o m : inFlightOk m -> inFlightOk (settle fid o m).
Proof.
  intros [Hlt Hnd]. unfold settle. destruct (find _ _) as [p|]; [|split; assumption].
  assert (E : calls (if fromRefresh p
                     then updView (setRefreshing false)
                            (updView (loadAccounts_resume o) m)
                     else updView (loadAccounts_resume o) m) = calls m)
    by now destruct (fromRefresh p).
  unfold inFlightOk. simpl. rewrite E. split.
  - apply Forall_forall. intros x Hx. apply filter_In in Hx.
    rewrite Forall_forall in Hlt. apply Hlt. tauto.
  - now apply ids_distinct_after_filter.
Qed.

Lemma inFlightOk_fold_fire due m :
  inFlightOk m -> inFlightOk (fold_left fire due m).
Proof.
  revert m. induction due as [|t due IH]; intros m H; simpl; [exact H|].
  apply IH. unfold fire. apply inFlightOk_callLoadAccounts.
  exact H.
Qed.

Lemma inFlightOk_step m e : inFlightOk m -> inFlightOk (step m e).
Proof.
  intros Hok. unfold step. destruct (enabled e m); [|exact Hok].
  assert (Hch : forall f, inFlightOk (changeFilter f m)).
  { intros f. unfold changeFilter. destruct (depsChanged _ _); [|exact Hok].
    unfold debounceEffect.
    destruct (hasCompanyId _); (eapply inFlightOk_same; [| |exact Hok]);
      simpl; now rewrite (runCleanup_fields (updView f m)). }
  destruct e; try apply Hch.
  - unfold handleRefresh.
    assert (H : inFlightOk (callLoadAccounts (scopeOf m) true
                                             (updView (setRefreshing true) m)))
      by now apply inFlightOk_callLoadAccounts.
    now destruct (company m).
  - unfold companyChanged. destruct (sameDep _ _); [exact Hok|].
    unfold companyEffect. destruct (hasCompanyId _); [|exact Hok].
    now apply inFlightOk_callLoadAccounts.
  - unfold elapse.
    eapply inFlightOk_same; [reflexivity | reflexivity |].
    now apply inFlightOk_fold_fire.
  - now apply inFlightOk_settle.
Qed.

Lemma inFlightOk_mount c t0 : inFlightOk (mount c t0).
Proof.
  unfold mount.
  set (m0 := {| company := c; view := initialState; now := t0; timers := [];
                nextTimer := 0; cleanup := None; inFlight := []; calls := [] |}).
  assert (H0 : inFlightOk m0) by (split; constructor).
  assert (H1 : inFlightOk (companyEffect (scopeOf m0) m0)).
  { unfold companyEffect. destruct (hasCompanyId _); [|exact H0].
    now apply inFlightOk_callLoadAccounts. }
  unfold debounceEffect. destruct (hasCompanyId _); exact H1.
Qed.

Lemma reachable_inFlightOk m : reachable m -> inFlightOk m.
Proof.
  induction 1; [apply inFlightOk_mount | now apply inFlightOk_step].
Qed.

Lemma find_new_fetch n q l :
  Forall (fun p => fetchId p < n) l -> fetchId q = n ->
  find (fun p => Nat.eqb (fetchId p) n) (l ++ [q]) = Some q.
Proof.
  intros Hlt Hq. induction l as [|p l IH]; simpl.
  - now rewrite Hq, Nat.eqb_refl.
  - inversion Hlt as [|p' l' Hp Hl]; subst.
    destruct (Nat.eqb_spec (fetchId p) (fetchId q)) as [E|_]; [lia|].
    now apply IH.
Qed.

(** X10: a click on Refresh or Retry with a company selected makes one
    [getAccounts] call at once, with the filters on screen, and shows the
    spinner with [refreshing] set; when that fetch settles, however it
    does, [loading] and [refreshing] are both false again, and [accounts]
    is the new list after a success and the old one after a failure. *)
Theorem refresh_round_trip (m : Component) (c : Company.t) (o : Outcome) :
  reachable m -> company m = Some c -> enabled ClickRefresh m = true ->
  let m1 := step m ClickRefresh in
  let m2 := step m1 (Settle (length (calls m)) o) in
  calls m1 = calls m ++ [{| calledAt := now m; request := requestOf c (view m) |}] /\
  refreshing (view m1) = true /\
  render (scopeOf m1) = LoadingView /\
  loading (view m2) = false /\
  refreshing (view m2) = false /\
  calls m2 = calls m1 /\
  accounts (view m2) =
    match o with
    | Resolved r => dataOrEmpty r
    | Rejected _ => accounts (view m)
    end.
Proof.
  intros Hr Hc Hen m1 m2.
  destruct (reachable_inFlightOk Hr) as [Hlt _].
  assert (E1 : m1 = callLoadAccounts (scopeOf m) true
                                     (updView (setRefreshing true) m)).
  { unfold m1, step. rewrite Hen. unfold handleRefresh. now rewrite Hc. }
  assert (E1' : m1 =
    {| company := company m;
       view := loadAccounts_begin (setRefreshing true (view m));
       now := now m; timers := timers m; nextTimer := nextTimer m;
       cleanup := cleanup m;
       inFlight := inFlight m ++
                   [{| fetchId := length (calls m); fromRefresh := true |}];
       calls := calls m ++
                [{| calledAt := now m; request := requestOf c (view m) |}] |}).
  { rewrite E1. unfold callLoadAccounts. simpl. now rewrite Hc. }
  assert (E2 : m2 = settle (length (calls m)) o m1) by reflexivity.
  assert (F : find (fun p => Nat.eqb (fetchId p) (length (calls m))) (inFlight m1)
              = Some {| fetchId := length (calls m); fromRefresh := true |}).
  { rewrite E1'. simpl. now apply find_new_fetch. }
  unfold settle in E2. rewrite F in E2. simpl in E2.
  rewrite E2, E1'. simpl. repeat split.
  now destruct o.
Qed.

(** X11: Retry with no company selected makes no [getAccounts] call: the
    read of the company id throws, the error view shows the text of that
    exception, [refreshing] ends false and [accounts] is untouched. *)
Theorem retry_without_company (m : Component) (text : str) :
  company m = None -> render (scopeOf m) = ErrorView text ->
  let m' := step m ClickRefresh in
  calls m' = calls m /\
  inFlight m' = inFlight m /\
  render (scopeOf m') = ErrorView (errorText noCompanyError) /\
  refreshing (view m') = false /\
  accounts (view m') = accounts (view m).
Proof.
  intros Hc Hrender m'. unfold m', step, enabled. rewrite Hrender.
  unfold handleRefresh, callLoadAccounts. simpl. rewrite Hc.
  repeat split.
Qed.

(** ** Selecting a company *)

(** X12: when the context supplies a company whose id is not empty and is
    not the id of the company before, [loadAccounts] is called at once,
    without debounce: one [getAccounts] call for the new id with the
    filters on screen, the spinner is shown, and a pending debounce timer
    is left as it is.  The accounts stored for the former company stay
    stored until that fetch resolves. *)
Theorem company_change_fetches_at_once (m : Component) (c : Company.t) :
  Company.id c <> [] ->
  companyIdDep (company m) <> Some (Company.id c) ->
  let m' := step m (CompanyChanged (Some c)) in
  company m' = Some c /\
  calls m' = calls m ++ [{| calledAt := now m; request := requestOf c (view m) |}] /\
  render (scopeOf m') = LoadingView /\
  error (view m') = None /\
  accounts (view m') = accounts (view m) /\
  timers m' = timers m.
Proof.
  intros Hid Hdep m'.
  assert (Hs : sameDep (companyIdDep (company m)) (companyIdDep (Some c)) = false).
  { simpl. destruct (companyIdDep (company m)) as [i|]; simpl; [|reflexivity].
    apply str_eqb_neq. congruence. }
  apply str_truthy_nonempty in Hid.
  unfold m', step, enabled, companyChanged. rewrite Hs.
  unfold companyEffect, callLoadAccounts. simpl. rewrite Hid.
  repeat split.
Qed.

(** X13: no fetch is made when the company is deselected, when the new
    company object has the id of the company before, or when the new
    company has an empty id; the stored accounts, the flags and the
    pending timer stay as they are. *)
Theorem company_change_without_fetch (m : Component) (c : option Company.t) :
  c = None \/ companyIdDep c = companyIdDep (company m) \/ hasCompanyId c = false ->
  let m' := step m (CompanyChanged c) in
  company m' = c /\ calls m' = calls m /\ view m' = view m /\
  timers m' = timers m /\ inFlight m' = inFlight m.
Proof.
  intros H m'. unfold m', step, enabled, companyChanged.
  destruct (sameDep (companyIdDep (company m)) (companyIdDep c)) eqn:Hs;
    [repeat split|].
  unfold companyEffect. simpl currentCompany.
  destruct (hasCompanyId c) eqn:Hhas; [|repeat split].
  exfalso. destruct H as [-> | [H | H]]; [discriminate | | discriminate].
  rewrite H in Hs. destruct (companyIdDep (company m)); simpl in Hs;
    [now rewrite str_eqb_refl in Hs | discriminate].
Qed.

(** X14: mounting with a company that has an id fetches twice: at once,
    and again 500 ms later through the debounce effect of the first
    render, with the same request; the second call puts the spinner back
    even if the first fetch has settled in between. *)
Theorem mount_fetches_twice (c : Company.t) (t0 d : N) (o : Outcome) :
  Company.id c <> [] -> (500 <= d)%N ->
  let m := run (mount (Some c) t0) [Settle 0 o; Elapse d] in
  calls m = [{| calledAt := t0; request := requestOf c initialState |};
             {| calledAt := t0 + 500; request := requestOf c initialState |}] /\
  render (scopeOf m) = LoadingView /\
  timers m = [].
Proof.
  intros Hid Hd m. apply str_truthy_nonempty in Hid.
  set (m0 := {| company := Some c; view := initialState; now := t0;
                timers := [{| timerId := 0; deadline := t0 + 500;
                              callback := {| currentCompany := Some c;
                                             state := initialState |} |}];
                nextTimer := 1; cleanup := Some 0;
                inFlight := [{| fetchId := 0; fromRefresh := false |}];
                calls := [{| calledAt := t0;
                             request := requestOf c initialState |}] |}).
  assert (E0 : mount (Some c) t0 = m0).
  { unfold mount, companyEffect, debounceEffect. simpl. rewrite Hid.
    reflexivity. }
  assert (E1 : step m0 (Settle 0 o) =
               setInFlight [] (updView (loadAccounts_resume o) m0))
    by reflexivity.
  change m with (step (step (mount (Some c) t0) (Settle 0 o)) (Elapse d)).
  rewrite E0, E1, step_elapse.
  rewrite (elapse_firing (setInFlight [] (updView (loadAccounts_resume o) m0))
                         d eq_refl) by (simpl; lia).
  repeat split.
Qed.

(** ** Overlapping fetches *)

Lemma find_in_flight fid l :
  In fid (map fetchId l) ->
  exists p, find (fun q => Nat.eqb (fetchId q) fid) l = Some p.
Proof.
  intros Hin. apply in_map_iff in Hin. destruct Hin as (p & Hp & Hin).
  destruct (find _ l) as [q|] eqn:F; [eauto|].
  apply (find_none _ _ F) in Hin. simpl in Hin.
  rewrite Hp, Nat.eqb_refl in Hin. discriminate.
Qed.

Lemma settle_found fid o m p :
  find (fun q => Nat.eqb (fetchId q) fid) (inFlight m) = Some p ->
  view (settle fid o m) =
    (if fromRefresh p then setRefreshing false (loadAccounts_resume o (view m))
     else loadAccounts_resume o (view m)) /\
  inFlight (settle fid o m) =
    filter (fun q => negb (Nat.eqb (fetchId q) fid)) (inFlight m) /\
  calls (settle fid o m) = calls m.
Proof.
  intros F. unfold settle. rewrite F. now destruct (fromRefresh p).
Qed.

(** X15: responses are applied in the order they arrive, not in the order
    the fetches were made: when two fetches are in flight and the later
    one settles first, the response of the earlier one, arriving after,
    replaces whatever the later one stored. *)
Theorem last_settled_wins (m : Component) (fid1 fid2 : nat) (o2 : Outcome)
    (r1 : Response) :
  In fid1 (map fetchId (inFlight m)) ->
  In fid2 (map fetchId (inFlight m)) ->
  fid1 < fid2 ->
  let m' := run m [Settle fid2 o2; Settle fid1 (Resolved r1)] in
  accounts (view m') = dataOrEmpty r1 /\
  loading (view m') = false /\
  calls m' = calls m.
Proof.
  intros H1 H2 Hlt m'.
  destruct (find_in_flight _ _ H2) as [p2 F2].
  destruct (settle_found fid2 o2 m F2) as (_ & Hfl & Hcalls).
  assert (H1' : In fid1 (map fetchId (inFlight (settle fid2 o2 m)))).
  { rewrite Hfl. apply in_map_iff in H1. destruct H1 as (p & Hp & Hin).
    apply in_map_iff. exists p. split; [assumption|].
    apply filter_In. split; [assumption|].
    apply negb_true_iff, Nat.eqb_neq. lia. }
  destruct (find_in_flight _ _ H1') as [p1 F1].
  destruct (settle_found fid1 (Resolved r1) (settle fid2 o2 m) F1)
    as (Hview & _ & Hcalls').
  change m' with (settle fid1 (Resolved r1) (settle fid2 o2 m)).
  rewrite Hview, Hcalls', Hcalls.
  destruct (fromRefresh p1); repeat split.
Qed.

(** ** Bursts of any length *)

Lemma burst_then_quiet (c : Company.t) (e : Event) (d : N)
    (b : list (Event * N)) :
  forall m,
    timersOk m -> filtersShown m -> company m = Some c -> Company.id c <> [] ->
    burstOk (view m) b -> changes e (burstState (view m) b) -> (500 <= d)%N ->
    calls (run m (burstEvents b ++ [e; Elapse d])) =
      calls m ++ [{| calledAt := now m + burstTime b + 500;
                     request :=
                       requestOf c (applyFilter e (burstState (view m) b)) |}] /\
    timers (run m (burstEvents b ++ [e; Elapse d])) = [].
Proof.
  induction b as [|[e0 d0] b IH]; intros m Hok Hshown Hc Hid Hb He Hd.
  - simpl burstEvents. simpl burstTime. rewrite N.add_0_r.
    exact (change_then_quiet Hok Hshown Hc Hid He Hd).
  - destruct Hb as (H0 & Hd0 & Hb). simpl burstState in He.
    pose proof (hasCompanyId_some m Hc Hid) as Hhas.
    destruct (applyFilter_keeps e0 (view m)) as [Hl He0].
    destruct (waiting_state_ok (applyFilter e0 (view m)) Hshown Hd0 Hl He0)
      as [Hok1 Hshown1].
    change (burstEvents ((e0, d0) :: b) ++ [e; Elapse d])
      with ([e0; Elapse d0] ++ (burstEvents b ++ [e; Elapse d])).
    rewrite run_app, (change_then_wait Hok Hshown Hhas H0 Hd0).
    destruct (IH _ Hok1 Hshown1 Hc Hid Hb He Hd) as [Hcalls Htimers].
    rewrite Hcalls, Htimers. split; [|reflexivity].
    simpl. now rewrite !N.add_assoc.
Qed.

(** X16: the debounce holds for bursts of any length: after any number of
    filter changes, each less than 500 ms after the one before, one more
    change followed by 500 ms of quiet makes exactly one [getAccounts]
    call in all, 500 ms after that last change and with the filters as the
    whole burst left them. *)
Theorem debounce_burst (m : Component) (c : Company.t) (b : list (Event * N))
    (e : Event) (d : N) :
  reachable m -> filtersShown m -> company m = Some c -> Company.id c <> [] ->
  burstOk (view m) b -> changes e (burstState (view m) b) -> (500 <= d)%N ->
  let m' := run m (burstEvents b ++ [e; Elapse d]) in
  calls m' =
    calls m ++ [{| calledAt := now m + burstTime b + 500;
                   request :=
                     requestOf c (applyFilter e (burstState (view m) b)) |}] /\
  timers m' = [].
Proof.
  intros Hr Hshown Hc Hid Hb He Hd m'.
  exact (burst_then_quiet b (reachable_timersOk Hr) Hshown Hc Hid Hb He Hd).
Qed.

(** ** What holds in every state the component can reach *)

Lemma timers_callLoadAccounts sc refresh m :
  timers (callLoadAccounts sc refresh m) = timers m.
Proof.
  unfold callLoadAccounts. now destruct (currentCompany sc).
Qed.

Lemma now_callLoadAccounts sc refresh m :
  now (callLoadAccounts sc refresh m) = now m.
Proof.
  unfold callLoadAccounts. now destruct (currentCompany sc).
Qed.

Lemma timers_fold_fire due m : timers (fold_left fire due m) = timers m.
Proof.
  revert m. induction due as [|t due IH]; intros m; simpl; [reflexivity|].
  rewrite IH. unfold fire.
  now rewrite timers_callLoadAccounts.
Qed.

Lemma timerScopesOk_same m m' :
  timers m' = timers m -> now m' = now m ->
  timerScopesOk m -> timerScopesOk m'.
Proof.
  unfold timerScopesOk. now intros -> ->.
Qed.

Lemma timerScopesOk_debounceEffect sc m :
  timerScopesOk m -> timerScopesOk (debounceEffect sc m).
Proof.
  unfold timerScopesOk, debounceEffect. intros H.
  destruct (hasCompanyId (currentCompany sc)) eqn:Hhas; simpl; [|exact H].
  apply Forall_app. split; [exact H|].
  constructor; [|constructor]. simpl. split; [exact Hhas | lia].
Qed.

Lemma timerScopesOk_runCleanup m : timerScopesOk m -> timerScopesOk (runCleanup m).
Proof.
  unfold timerScopesOk, runCleanup. intros H.
  destruct (cleanup m); [|exact H]. simpl.
  apply Forall_forall. intros t Ht. apply filter_In in Ht.
  rewrite Forall_forall in H. apply H. tauto.
Qed.

Lemma timerScopesOk_step m e : timerScopesOk m -> timerScopesOk (step m e).
Proof.
  intros Hok. unfold step. destruct (enabled e m); [|exact Hok].
  assert (Hch : forall f, timerScopesOk (changeFilter f m)).
  { intros f. unfold changeFilter. destruct (depsChanged _ _); [|exact Hok].
    apply timerScopesOk_debounceEffect.
    exact (timerScopesOk_runCleanup (m := updView f m) Hok). }
  destruct e; try apply Hch.
  - unfold handleRefresh.
    assert (H : timerScopesOk (callLoadAccounts (scopeOf m) true
                                                (updView (setRefreshing true) m))).
    { eapply timerScopesOk_same;
        [apply timers_callLoadAccounts | apply now_callLoadAccounts | exact Hok]. }
    now destruct (company m).
  - unfold companyChanged. destruct (sameDep _ _); [exact Hok|].
    unfold companyEffect. destruct (hasCompanyId _); [|exact Hok].
    eapply timerScopesOk_same;
      [apply timers_callLoadAccounts | apply now_callLoadAccounts | exact Hok].
  - unfold timerScopesOk, elapse. simpl. rewrite timers_fold_fire. simpl.
    apply Forall_forall. intros t Ht. apply filter_In in Ht.
    destruct Ht as [Ht _]. unfold timerScopesOk in Hok.
    rewrite Forall_forall in Hok. destruct (Hok t Ht) as [H1 H2].
    split; [exact H1 | lia].
  - unfold settle. destruct (find _ _) as [p|]; [|exact Hok].
    eapply timerScopesOk_same; [| |exact Hok]; now destruct (fromRefresh p).
Qed.

Lemma timerScopesOk_mount c t0 : timerScopesOk (mount c t0).
Proof.
  unfold mount. apply timerScopesOk_debounceEffect.
  unfold companyEffect. destruct (hasCompanyId _); [|constructor].
  eapply timerScopesOk_same;
    [apply timers_callLoadAccounts | apply now_callLoadAccounts | constructor].
Qed.

(** X17: in every state the component can reach at most one debounce timer
    is pending; it is not due yet, it is due within 500 ms, and it was set
    by a render that had a company with an id, so that when it fires its
    [loadAccounts] reaches [getAccounts].  The fetches in flight are
    distinct logged calls. *)
Theorem reachable_invariants (m : Component) :
  reachable m ->
  length (timers m) <= 1 /\
  Forall (fun t => (now m < deadline t <= now m + 500)%N /\
                   exists c, currentCompany (callback t) = Some c /\
                             Company.id c <> [])
         (timers m) /\
  Forall (fun p => fetchId p < length (calls m)) (inFlight m) /\
  NoDup (map fetchId (inFlight m)).
Proof.
  intros Hr.
  assert (Hs : timerScopesOk m)
    by (induction Hr; [apply timerScopesOk_mount | now apply timerScopesOk_step]).
  destruct (reachable_inFlightOk Hr) as [Hlt Hnd].
  pose proof (reachable_timersOk Hr) as Hok.
  repeat split; try assumption.
  - destruct Hok as [-> | (t & -> & _)]; simpl; lia.
  - unfold timerScopesOk in Hs. rewrite Forall_forall in Hs.
    apply Forall_forall. intros t Ht. destruct (Hs t Ht) as [Hhas Hdue].
    split.
    + split; [|exact Hdue].
      destruct Hok as [E | (t' & E & _ & Hnow)]; rewrite E in Ht;
        [contradiction|]. destruct Ht as [<-|[]]. exact Hnow.
    + destruct (currentCompany (callback t)) as [c|]; [|discriminate].
      exists c. split; [reflexivity|]. now apply str_truthy_nonempty.
Qed.

(** X18: with a company on screen whose id is empty, a filter change
    clears the pending timer, sets none and fetches nothing, however long
    one waits afterwards; only the filter itself changes. *)
Theorem change_without_company_id (m : Component) (e : Event) (d : N) :
  reachable m -> filtersShown m -> hasCompanyId (company m) = false ->
  changes e (view m) ->
  let m' := run m [e; Elapse d] in
  calls m' = calls m /\ timers m' = [] /\ view m' = applyFilter e (view m).
Proof.
  intros Hr Hshown Hid Hch m'.
  pose proof (reachable_timersOk Hr) as Hok.
  destruct (render_filtersShown Hshown) as [panel Hrender].
  pose proof (depsChanged_change Hch) as Hd.
  pose proof (runCleanup_timersOk (m := updView (applyFilter e) m) Hok) as Hts.
  assert (E : step m e =
              {| company := company m; view := applyFilter e (view m);
                 now := now m; timers := []; nextTimer := nextTimer m;
                 cleanup := None; inFlight := inFlight m; calls := calls m |}).
  { assert (E : changeFilter (applyFilter e) m =
              {| company := company m; view := applyFilter e (view m);
                 now := now m; timers := []; nextTimer := nextTimer m;
                 cleanup := None; inFlight := inFlight m; calls := calls m |}).
    { unfold changeFilter. simpl. rewrite Hd.
      unfold debounceEffect. simpl. rewrite Hid.
      rewrite (runCleanup_fields (updView (applyFilter e) m)), Hts.
      reflexivity. }
    unfold step, enabled. destruct Hch; rewrite Hrender; exact E. }
  change m' with (step (step m e) (Elapse d)).
  rewrite E, step_elapse, elapse_idle by reflexivity.
  repeat split.
Qed.

(** ** The [refreshing] flag *)

Lemma same_id_same_fetch (ps : list Pending) (p q : Pending) :
  NoDup (map fetchId ps) -> In p ps -> In q ps -> fetchId p = fetchId q ->
  p = q.
Proof.
  induction ps as [|r ps IH]; simpl; [contradiction|].
  intros Hnd Hp Hq E. apply NoDup_cons_iff in Hnd. destruct Hnd as [Hfresh Hrest].
  destruct Hp as [->|Hp], Hq as [->|Hq]; auto.
  - exfalso. apply Hfresh. rewrite E. now apply in_map.
  - exfalso. apply Hfresh. rewrite <- E. now apply in_map.
Qed.

Lemma refreshingOk_grow m m' :
  refreshing (view m') = refreshing (view m) ->
  incl (inFlight m) (inFlight m') ->
  refreshingOk m -> refreshingOk m'.
Proof.
  unfold refreshingOk. intros -> Hincl H Hr.
  destruct (H Hr) as (p & Hin & Hp). exists p. auto.
Qed.

Lemma refreshingOk_callLoadAccounts sc m :
  refreshingOk m -> refreshingOk (callLoadAccounts sc false m).
Proof.
  apply refreshingOk_grow; unfold callLoadAccounts;
    destruct (currentCompany sc); simpl; try reflexivity;
    try apply incl_refl.
  apply incl_appl, incl_refl.
Qed.

Lemma refreshingOk_fold_fire due m :
  refreshingOk m -> refreshingOk (fold_left fire due m).
Proof.
  revert m. induction due as [|t due IH]; intros m H; simpl; [exact H|].
  apply IH. unfold fire. apply refreshingOk_callLoadAccounts. exact H.
Qed.

Lemma changeFilter_fields f m :
  view (changeFilter f m) = f (view m) /\
  inFlight (changeFilter f m) = inFlight m.
Proof.
  unfold changeFilter. destruct (depsChanged _ _); [|split; reflexivity].
  unfold debounceEffect. destruct (hasCompanyId _); simpl;
    rewrite (runCleanup_fields (updView f m)); split; reflexivity.
Qed.

Lemma refreshingOk_changeFilter f m :
  refreshing (f (view m)) = refreshing (view m) ->
  refreshingOk m -> refreshingOk (changeFilter f m).
Proof.
  intros Hf. destruct (changeFilter_fields f m) as [Hv Hi].
  apply refreshingOk_grow; [now rewrite Hv | rewrite Hi; apply incl_refl].
Qed.

Lemma refreshingOk_settle fid o m :
  inFlightOk m -> refreshingOk m -> refreshingOk (settle fid o m).
Proof.
  intros [_ Hnd] H. destruct (find (fun q => Nat.eqb (fetchId q) fid) (inFlight m))
    as [p|] eqn:F.
  - destruct (settle_found fid o m F) as (Hview & Hfl & _).
    destruct (find_some _ _ F) as [Hpin Hpid]. apply Nat.eqb_eq in Hpid.
    unfold refreshingOk. rewrite Hview, Hfl.
    destruct (fromRefresh p) eqn:Hp; [simpl; discriminate|].
    intros Hr.
    assert (Hr' : refreshing (view m) = true) by (destruct o; exact Hr).
    destruct (H Hr') as (q & Hin & Hq).
    exists q. split; [|exact Hq]. apply filter_In. split; [exact Hin|].
    apply negb_true_iff, Nat.eqb_neq. intros E.
    assert (q = p)
      by (apply (same_id_same_fetch _ _ _ Hnd Hin Hpin); congruence).
    congruence.
  - unfold settle. rewrite F. exact H.
Qed.

Lemma refreshingOk_step m e : inFlightOk m -> refreshingOk m -> refreshingOk (step m e).
Proof.
  intros Hfl Hok. unfold step. destruct (enabled e m); [|exact Hok].
  destruct e.
  - now apply refreshingOk_changeFilter.
  - now apply refreshingOk_changeFilter.
  - now apply refreshingOk_changeFilter.
  - unfold handleRefresh, callLoadAccounts. simpl.
    destruct (company m); unfold refreshingOk; simpl; [|discriminate].
    intros _. eexists. split; [apply in_or_app; right; left; reflexivity|].
    reflexivity.
  - unfold companyChanged. destruct (sameDep _ _); [exact Hok|].
    unfold companyEffect. destruct (hasCompanyId _); [|exact Hok].
    now apply refreshingOk_callLoadAccounts.
  - unfold elapse.
    eapply refreshingOk_grow; [reflexivity | apply incl_refl |].
    now apply refreshingOk_fold_fire.
  - now apply refreshingOk_settle.
Qed.

Lemma refreshingOk_mount c t0 : refreshingOk (mount c t0).
Proof.
  unfold refreshingOk, mount, companyEffect, debounceEffect, callLoadAccounts.
  simpl. destruct c as [c|]; simpl; [destruct (str_truthy _)|]; discriminate.
Qed.

(** X19: [refreshing] is never left set: in every state the component can
    reach, if [refreshing] is true then a fetch started by a click on
    Refresh or Retry is still in flight (and will clear the flag when it
    settles). *)
Theorem refreshing_means_in_flight (m : Component) :
  reachable m ->
  refreshing (view m) = true ->
  exists p, In p (inFlight m) /\ fromRefresh p = true /\
            fetchId p < length (calls m).
Proof.
  intros Hr.
  assert (Hok : refreshingOk m).
  { induction Hr; [apply refreshingOk_mount|].
    apply refreshingOk_step; [now apply reachable_inFlightOk | assumption]. }
  intros Href.
  destruct (Hok Href) as (p & Hin & Hp).
  destruct (reachable_inFlightOk Hr) as [Hlt _].
  rewrite Forall_forall in Hlt.
  exists p. auto.
Qed.

(** ** Case of the search term *)

(** X20: for accounts that have no number, the search does not depend on
    the case of the letters typed: two search terms equal up to case keep
    the same accounts.  (A number is matched literally, so with numbers in
    play the case of the term can matter.) *)
Theorem search_ignores_case_without_numbers (st : ViewState) (t t' : str) :
  Forall (fun a => Account.number a = None) (accounts st) ->
  eq_ignore_case t t' ->
  filteredAccounts (setSearchTerm t st) = filteredAccounts (setSearchTerm t' st).
Proof.
  intros Hnum Hci. unfold filteredAccounts.
  change (accounts (setSearchTerm t st)) with (accounts st).
  change (accounts (setSearchTerm t' st)) with (accounts st).
  apply filter_ext_in. intros a Hin.
  rewrite Forall_forall in Hnum. specialize (Hnum a Hin).
  assert (He : str_eqb t (lit "") = str_eqb t' (lit "")).
  { destruct Hci; reflexivity. }
  apply toLowerCase_letter_case in Hci.
  change (matchesType (setSearchTerm t st) a)
    with (matchesType (setSearchTerm t' st) a).
  change (matchesActive (setSearchTerm t st) a)
    with (matchesActive (setSearchTerm t' st) a).
  unfold matchesSearch, numberMatches. simpl searchTerm.
  now rewrite Hnum, He, Hci.
Qed.


End Model.

(** * Examples

    The examples run on an engine whose [toLowerCase] is the ASCII
    lower-casing and whose numbers are the integers.  On ASCII strings
    and on integers that a double holds exactly it agrees with the
    language, and the examples use nothing else. *)

Definition exampleEngine : Engine :=
  {| toLowerCase := asciiLowerCase;
     toLowerCase_ascii := fun s _ => eq_refl;
     toLowerCase_letter_case :=
       fun s t => proj1 (eq_ignore_case_asciiLowerCase s t);
     num := Z;
     ofZ := fun z => z;
     add := Z.add;
     isZero := fun z => Z.eqb z 0;
     nonNegative := fun z => Z.leb 0 z;
     add_zero_r := Z.add_0_r;
     add_zero_l := Z.add_0_l;
     isZero_zero := fun x => proj1 (Z.eqb_eq x 0);
     isZero_ofZ := fun z => eq_refl;
     nonNegative_zero := eq_refl |}.

Existing Instance exampleEngine.


Lemma falsy_balance_adds_zero_witness :
  let a := {| Account.id := lit "2"; Account.name := lit "Petty Cash";
              Account.type := lit "Bank"; Account.number := None;
              Account.balance := VUndefined; Account.description := None;
              Account.is_active := true |} in
  truthy (Account.balance a) = false /\
  totalBankBalance
    (accountStats
       (setAccounts ([scenarioAccount (lit "Bank") 100 true] ++ [a]) initialState))
  = VNumber (Num (ofZ 100)).
Proof.
  intros a. split; [reflexivity|].
  destruct (falsy_balance_adds_zero initialState
              [scenarioAccount (lit "Bank") 100 true] [] a eq_refl)
    as (_ & H & _).
  exact H.
Defined.


Lemma type_case_mismatch_witness :
  let a := {| Account.id := lit "7"; Account.name := lit "Savings";
              Account.type := lit "bank"; Account.number := Some (lit "1010");
              Account.balance := VNumber (Num (ofZ 250)); Account.description := None;
              Account.is_active := true |} in
  let st' := setFilterType (lit "bank")
               (setSearchTerm (lit "") (setAccounts [a] initialState)) in
  (eq_ignore_case (Account.type a) (lit "Bank") /\
   Account.type a <> lit "Bank" /\ Account.is_active a = true) /\
  filteredAccounts st' = [a] /\
  bankAccounts (accountStats st') = 0 /\
  totalBankBalance (accountStats st') = zero.
Proof.
  intros a st'.
  assert (H1 : eq_ignore_case (Account.type a) (lit "Bank")).
  { apply eq_ignore_case_asciiLowerCase. reflexivity. }
  assert (H2 : Account.type a <> lit "Bank") by discriminate.
  split; [repeat split; assumption|].
  exact (type_case_mismatch initialState a H1 H2 eq_refl).
Defined.


Lemma loadAccounts_rejected_witness :
  let sc := {| currentCompany := Some {| Company.id := lit "c1" |};
               state := initialState |} in
  let prior := setAccounts scenarioAccounts initialState in
  let st' := loadAccounts sc
               (fun _ => Rejected {| message := Some (lit "timeout") |}) prior in
  error st' = Some (lit "timeout") /\ loading st' = false /\
  accounts st' = scenarioAccounts.
Proof.
  intros sc prior st'.
  destruct (loadAccounts_rejected sc
              (fun _ => Rejected {| message := Some (lit "timeout") |}) prior
              eq_refl eq_refl) as (Hm & _ & _ & Hl & Ha & _).
  split; [|split; assumption].
  apply Hm; [reflexivity | discriminate].
Defined.


Lemma debounce_three_changes_witness :
  let c := {| Company.id := lit "c1" |} in
  let m := step (mount (Some c) 0)
                (Settle 0 (Resolved {| data := Some scenarioAccounts |})) in
  let burst := [SetSearchTerm (lit "a"); Elapse 100;
                SetSearchTerm (lit "ab"); Elapse 499;
                ToggleShowInactive; Elapse 500] in
  (reachable m /\ filtersShown m /\ company m = Some c) /\
  map calledAt (calls (run m burst)) = [0%N; 1099%N].
Proof.
  intros c m burst.
  assert (Hr : reachable m) by apply reachable_step, reachable_mount.
  assert (Hs : filtersShown m) by (repeat split; discriminate).
  split; [repeat split; solve [assumption | discriminate]|].
  assert (Hid : Company.id c <> []) by discriminate.
  assert (H1 : changes (SetSearchTerm (lit "a")) (view m))
    by (constructor; discriminate).
  assert (H2 : changes (SetSearchTerm (lit "ab"))
                       (applyFilter (SetSearchTerm (lit "a")) (view m)))
    by (constructor; discriminate).
  assert (H3 : changes ToggleShowInactive
                       (applyFilter (SetSearchTerm (lit "ab"))
                          (applyFilter (SetSearchTerm (lit "a")) (view m))))
    by constructor.
  destruct (@debounce_three_changes _ m c _ _ _ 100 499 500 Hr Hs eq_refl Hid
              H1 H2 H3 eq_refl eq_refl)
    as (_ & _ & _ & Hcalls & _); [discriminate|].
  unfold burst. rewrite Hcalls. reflexivity.
Defined.


Lemma no_company_spinner_witness :
  let es := [Elapse 1000; SetSearchTerm (lit "rent"); ClickRefresh;
             CompanyChanged None; Elapse 5000] in
  forallb keepsNoCompany es = true /\
  render (scopeOf (run (mount None 0) es)) = LoadingView.
Proof.
  intros es. split; [reflexivity|].
  exact (proj1 (proj2 (@no_company_spinner _ 0 es eq_refl))).
Defined.


Lemma unfiltered_request_keeps_all_witness :
  let c := {| Company.id := lit "c1" |} in
  let st := setShowInactive true (setAccounts scenarioAccounts initialState) in
  Options.search (options (requestOf c st)) = None /\
  Options.account_type (options (requestOf c st)) = None /\
  Options.is_active (options (requestOf c st)) = None /\
  filteredAccounts st = scenarioAccounts.
Proof.
  intros c st. do 3 (split; [reflexivity|]).
  exact (unfiltered_request_keeps_all c st eq_refl eq_refl eq_refl).
Defined.


Lemma longer_term_fewer_rows_witness :
  let a := {| Account.id := lit "1"; Account.name := lit "Main Checking";
              Account.type := lit "Bank"; Account.number := Some (lit "1000");
              Account.balance := VNumber (Num (ofZ 100));
              Account.description := None; Account.is_active := true |} in
  let st := setAccounts [a] initialState in
  (substring_of (lit "HEC") (lit "CHECK") /\ asciiOnly (lit "CHECK") /\
   Forall (fun a => asciiOnly (Account.name a)) (accounts st)) /\
  In a (filteredAccounts (setSearchTerm (lit "HEC") st)).
Proof.
  intros a st.
  assert (H : substring_of (lit "HEC") (lit "CHECK"))
    by (exists (lit "C"), (lit "K"); reflexivity).
  assert (Hascii : asciiOnly (lit "CHECK"))
    by (apply asciiOnlyb_sound; reflexivity).
  assert (Hnames : Forall (fun a => asciiOnly (Account.name a)) (accounts st))
    by (constructor; [apply asciiOnlyb_sound; reflexivity | constructor]).
  split; [exact (conj H (conj Hascii Hnames))|].
  apply (@longer_term_fewer_rows _ st (lit "HEC") (lit "CHECK") H Hascii Hnames a).
  left. reflexivity.
Defined.


Lemma type_filter_ignores_case_witness :
  (eq_ignore_case (lit "bank") (lit "BANK") /\
   lit "bank" <> lit "all" /\ lit "BANK" <> lit "all") /\
  filteredAccounts
    (setFilterType (lit "BANK") (setAccounts scenarioAccounts initialState))
  = [scenarioAccount (lit "Bank") 100 true].
Proof.
  assert (H : eq_ignore_case (lit "bank") (lit "BANK"))
    by (apply eq_ignore_case_asciiLowerCase; reflexivity).
  assert (H1 : lit "bank" <> lit "all") by discriminate.
  assert (H2 : lit "BANK" <> lit "all") by discriminate.
  split; [repeat split; assumption|].
  rewrite <- (type_filter_ignores_case
                (setAccounts scenarioAccounts initialState) H H1 H2).
  reflexivity.
Defined.


Lemma main_view_consistent_witness :
  let sc := {| currentCompany := Some {| Company.id := lit "c1" |};
               state := setLoading false
                          (setAccounts scenarioAccounts initialState) |} in
  exists panel,
    render sc = MainView panel /\
    length (rows panel) <= cardTotalAccounts panel /\
    noAccountsFound panel = false.
Proof.
  intros sc. eexists. split; [reflexivity|].
  split; [|reflexivity].
  exact (proj1 (proj2 (proj2 (proj2 (proj2 (proj2
           (@main_view_consistent _ sc _ eq_refl))))))).
Defined.


Lemma other_type_only_counted_witness :
  let a := scenarioAccount (lit "Equity") 900 true in
  let s := accountStats (setAccounts (scenarioAccounts ++ [a]) initialState) in
  (Account.type a <> lit "Bank" /\ Account.type a <> lit "Fixed Asset" /\
   Account.type a <> lit "Accounts Payable") /\
  totalAssets s = VNumber (Num (ofZ 500)) /\ totalAccounts s = 3.
Proof.
  intros a s.
  assert (H1 : Account.type a <> lit "Bank") by discriminate.
  assert (H2 : Account.type a <> lit "Fixed Asset") by discriminate.
  assert (H3 : Account.type a <> lit "Accounts Payable") by discriminate.
  split; [repeat split; assumption|].
  destruct (@other_type_only_counted _ initialState scenarioAccounts [] a H1 H2 H3)
    as (_ & _ & Hf & _ & Hn).
  split; [exact Hf | exact Hn].
Defined.


Lemma refresh_round_trip_witness :
  let c := {| Company.id := lit "c1" |} in
  let m := run (mount (Some c) 0)
               [Settle 0 (Rejected {| message := Some (lit "timeout") |})] in
  let m2 := run m [ClickRefresh;
                   Settle 1 (Resolved {| data := Some scenarioAccounts |})] in
  (reachable m /\ company m = Some c /\ enabled ClickRefresh m = true) /\
  accounts (view m2) = scenarioAccounts /\ refreshing (view m2) = false.
Proof.
  intros c m m2.
  assert (Hr : reachable m) by apply reachable_step, reachable_mount.
  split; [repeat split; exact Hr|].
  destruct (@refresh_round_trip _ m c
              (Resolved {| data := Some scenarioAccounts |}) Hr eq_refl eq_refl)
    as (_ & _ & _ & _ & Href & _ & Hacc).
  split; [exact Hacc | exact Href].
Defined.


Lemma retry_without_company_witness :
  let c := {| Company.id := lit "c1" |} in
  let m := run (mount (Some c) 0)
               [Settle 0 (Rejected {| message := Some (lit "timeout") |});
                CompanyChanged None] in
  (company m = None /\ render (scopeOf m) = ErrorView (lit "timeout")) /\
  map calledAt (calls (step m ClickRefresh)) = [0%N].
Proof.
  intros c m. split; [split; reflexivity|].
  destruct (@retry_without_company _ m (lit "timeout") eq_refl eq_refl)
    as (Hcalls & _).
  rewrite Hcalls. reflexivity.
Defined.


Lemma company_change_fetches_at_once_witness :
  let c1 := {| Company.id := lit "c1" |} in
  let c2 := {| Company.id := lit "c2" |} in
  let m := run (mount (Some c1) 0)
               [Settle 0 (Resolved {| data := Some scenarioAccounts |});
                Elapse 200] in
  (Company.id c2 <> [] /\ companyIdDep (company m) <> Some (Company.id c2)) /\
  map (fun k => (calledAt k, companyId (request k)))
      (calls (step m (CompanyChanged (Some c2))))
  = [(0%N, lit "c1"); (200%N, lit "c2")].
Proof.
  intros c1 c2 m.
  assert (H1 : Company.id c2 <> []) by discriminate.
  assert (H2 : companyIdDep (company m) <> Some (Company.id c2)) by discriminate.
  split; [split; assumption|].
  destruct (@company_change_fetches_at_once _ m c2 H1 H2) as (_ & Hcalls & _).
  rewrite Hcalls. reflexivity.
Defined.


Lemma company_change_without_fetch_witness :
  let c1 := {| Company.id := lit "c1" |} in
  let m := run (mount (Some c1) 0)
               [Settle 0 (Resolved {| data := Some scenarioAccounts |})] in
  let m' := step m (CompanyChanged None) in
  map calledAt (calls m') = [0%N] /\ accounts (view m') = scenarioAccounts.
Proof.
  intros c1 m m'.
  destruct (@company_change_without_fetch _ m None (or_introl eq_refl))
    as (_ & Hcalls & Hview & _).
  fold m' in Hcalls, Hview. rewrite Hcalls, Hview. split; reflexivity.
Defined.


Lemma mount_fetches_twice_witness :
  let c := {| Company.id := lit "c1" |} in
  (Company.id c <> [] /\ (500 <= 500)%N) /\
  map calledAt
      (calls (run (mount (Some c) 0)
                  [Settle 0 (Resolved {| data := Some scenarioAccounts |});
                   Elapse 500]))
  = [0%N; 500%N].
Proof.
  intros c.
  assert (H1 : Company.id c <> []) by discriminate.
  assert (H2 : (500 <= 500)%N) by discriminate.
  split; [split; assumption|].
  destruct (@mount_fetches_twice _ c 0 500
              (Resolved {| data := Some scenarioAccounts |}) H1 H2)
    as (Hcalls & _).
  rewrite Hcalls. reflexivity.
Defined.


Lemma last_settled_wins_witness :
  let c := {| Company.id := lit "c1" |} in
  let m := run (mount (Some c) 0) [Elapse 500] in
  let older := {| data := Some [scenarioAccount (lit "Bank") 100 true] |} in
  let newer := {| data := Some scenarioAccounts |} in
  (In 0 (map fetchId (inFlight m)) /\ In 1 (map fetchId (inFlight m))) /\
  accounts (view (run m [Settle 1 (Resolved newer); Settle 0 (Resolved older)]))
  = [scenarioAccount (lit "Bank") 100 true].
Proof.
  intros c m older newer.
  assert (H0 : In 0 (map fetchId (inFlight m))) by (left; reflexivity).
  assert (H1 : In 1 (map fetchId (inFlight m))) by (right; left; reflexivity).
  split; [split; assumption|].
  exact (proj1 (@last_settled_wins _ m 0 1 (Resolved newer) older H0 H1
                  (le_n 1))).
Defined.


Lemma debounce_burst_witness :
  let c := {| Company.id := lit "c1" |} in
  let m := step (mount (Some c) 0)
                (Settle 0 (Resolved {| data := Some scenarioAccounts |})) in
  let b := [(SetSearchTerm (lit "r"), 120%N); (SetSearchTerm (lit "re"), 90%N);
            (SetSearchTerm (lit "ren"), 200%N); (SetFilterType (lit "bank"), 499%N)] in
  (reachable m /\ filtersShown m /\ burstOk (view m) b) /\
  map calledAt (calls (run m (burstEvents b ++ [ToggleShowInactive; Elapse 700])))
  = [0%N; 1409%N].
Proof.
  intros c m b.
  assert (Hr : reachable m) by apply reachable_step, reachable_mount.
  assert (Hs : filtersShown m) by (repeat split; discriminate).
  assert (Hb : burstOk (view m) b)
    by (repeat split; constructor; discriminate).
  split; [exact (conj Hr (conj Hs Hb))|].
  assert (Hid : Company.id c <> []) by discriminate.
  assert (Hd : (500 <= 700)%N) by discriminate.
  destruct (@debounce_burst _ m c b ToggleShowInactive 700 Hr Hs eq_refl Hid Hb
              (changes_showInactive _) Hd) as (Hcalls & _).
  rewrite Hcalls. reflexivity.
Defined.


Lemma reachable_invariants_witness :
  let c := {| Company.id := lit "c1" |} in
  let m := run (mount (Some c) 0)
               [Settle 0 (Resolved {| data := Some scenarioAccounts |});
                SetSearchTerm (lit "a"); Elapse 100; ClickRefresh;
                SetSearchTerm (lit "ab")] in
  reachable m /\ length (timers m) <= 1 /\ length (inFlight m) = 1.
Proof.
  intros c m.
  assert (Hr : reachable m) by (repeat apply reachable_step; apply reachable_mount).
  split; [exact Hr|]. split; [|reflexivity].
  exact (proj1 (reachable_invariants Hr)).
Defined.


Lemma change_without_company_id_witness :
  let c := {| Company.id := lit "c1" |} in
  let m := run (mount (Some c) 0)
               [Settle 0 (Resolved {| data := Some scenarioAccounts |});
                Elapse 500;
                Settle 1 (Resolved {| data := Some scenarioAccounts |});
                CompanyChanged (Some {| Company.id := lit "" |})] in
  (reachable m /\ filtersShown m /\ hasCompanyId (company m) = false) /\
  map calledAt (calls (run m [SetSearchTerm (lit "rent"); Elapse 5000]))
  = [0%N; 500%N].
Proof.
  intros c m.
  assert (Hr : reachable m) by (repeat apply reachable_step; apply reachable_mount).
  assert (Hs : filtersShown m) by (repeat split; discriminate).
  split; [exact (conj Hr (conj Hs eq_refl))|].
  assert (Hch : changes (SetSearchTerm (lit "rent")) (view m))
    by (constructor; discriminate).
  destruct (@change_without_company_id _ m _ 5000 Hr Hs eq_refl Hch)
    as (Hcalls & _).
  rewrite Hcalls. reflexivity.
Defined.


Lemma refreshing_means_in_flight_witness :
  let c := {| Company.id := lit "c1" |} in
  let m := run (mount (Some c) 0)
               [Settle 0 (Resolved {| data := Some scenarioAccounts |});
                ClickRefresh] in
  (reachable m /\ refreshing (view m) = true) /\
  exists p, In p (inFlight m) /\ fromRefresh p = true.
Proof.
  intros c m.
  assert (Hr : reachable m) by (repeat apply reachable_step; apply reachable_mount).
  split; [split; [exact Hr | reflexivity]|].
  destruct (@refreshing_means_in_flight _ m Hr eq_refl) as (p & Hin & Hp & _).
  exists p. split; assumption.
Defined.


Lemma search_ignores_case_without_numbers_witness :
  let a := {| Account.id := lit "1"; Account.name := lit "Main Checking";
              Account.type := lit "Bank"; Account.number := None;
              Account.balance := VNumber (Num (ofZ 100));
              Account.description := None; Account.is_active := true |} in
  let b := {| Account.id := lit "2"; Account.name := lit "Payroll";
              Account.type := lit "Bank"; Account.number := None;
              Account.balance := VNumber (Num (ofZ 40));
              Account.description := None; Account.is_active := true |} in
  let st := setAccounts [a; b] initialState in
  (Forall (fun a => Account.number a = None) (accounts st) /\
   eq_ignore_case (lit "check") (lit "ChEcK")) /\
  filteredAccounts (setSearchTerm (lit "ChEcK") st) = [a].
Proof.
  intros a b st.
  assert (H1 : Forall (fun a => Account.number a = None) (accounts st))
    by (repeat constructor).
  assert (H2 : eq_ignore_case (lit "check") (lit "ChEcK"))
    by (apply eq_ignore_case_asciiLowerCase; reflexivity).
  split; [split; assumption|].
  rewrite <- (search_ignores_case_without_numbers st H1 H2).
  reflexivity.
Defined.


(** The prompt is rendered only once a load has completed: here a company
    is selected, its accounts arrive, and the company is then deselected. *)
Remark prompt_after_completed_load :
  let c := {| Company.id := lit "c1" |} in
  render (scopeOf (run (mount (Some c) 0)
                       [Settle 0 (Resolved {| data := Some scenarioAccounts |});
                        Elapse 500;
                        Settle 1 (Resolved {| data := Some scenarioAccounts |});
                        CompanyChanged None]))
  = SelectCompanyView.
Proof. reflexivity. Qed.


(** A timer set while a company was selected still fires after the company
    is deselected, with the scope of the render that set it: a fetch for
    the former company is made while no company is selected. *)
Remark stale_timer_fetches_without_company :
  let c := {| Company.id := lit "c1" |} in
  let m := run (mount (Some c) 0)
               [Settle 0 (Resolved {| data := Some scenarioAccounts |});
                SetSearchTerm (lit "rent"); Elapse 100;
                CompanyChanged None; Elapse 400] in
  company m = None /\
  map calledAt (calls m) = [0%N; 500%N] /\
  map (fun k => companyId (request k)) (calls m) = [lit "c1"; lit "c1"].
Proof. repeat split. Qed.

